(** * Sentinel-2 cloud filtering and export: a model of
    [sentinel2_cloud_export.py] and the properties of its decision logic.

    The script is orchestration over the Earth Engine service.  The Python
    code is embedded function by function; the service is a record
    ([Service]) holding the two image archives, the fire collection, the
    geometric and neighbourhood operators the script only forwards, and an
    oracle telling which remote requests are refused.  Rasters are partial
    maps from pixels to rationals ([None] is a masked pixel), so the
    per-pixel operators the script combines ([gt], [mask], [updateMask],
    [reduceRegion] with a sum reducer) are executable. *)

From Stdlib Require Import ZArith QArith Qround List String Ascii Bool Lia.
From Stdlib Require Import DecimalString DecimalPos DecimalZ FinFun.
Import ListNotations.

Local Open Scope string_scope.
Local Open Scope list_scope.
Local Open Scope Z_scope.

(* ------------------------------------------------------------------ *)
(** ** Global configuration *)

Definition CLOUD_FILTER : Q := 50.
Definition CLD_PRB_THRESH : Q := 30.
Definition NIR_DRK_THRESH : Q := 15 # 100.
Definition CLD_PRJ_DIST : Q := 1.
Definition BUFFER : Q := 50.
Definition UMBRAL_NUBES : Q := 15.

(* ------------------------------------------------------------------ *)
(** ** Data model *)

(** [ee.Date.fromYMD(y, m, d)] and its [get('year')], [get('month')]. *)
Record Date := fromYMD { year : Z; month : Z; day : Z }.

Definition date_ltb (a b : Date) : bool :=
  (year a <? year b)
  || ((year a =? year b)
      && ((month a <? month b) || ((month a =? month b) && (day a <? day b)))).

Definition date_leb (a b : Date) : bool := negb (date_ltb b a).

(** Geometries are the expressions the client builds: the script never
    looks inside them, it applies [bounds()] and [buffer(d)] and hands the
    result to the service. *)
Inductive Geometry :=
| Polygon (ring : list (Q * Q))
| Bounds (g : Geometry)
| Buffer (g : Geometry) (distance : Q).

Definition Pixel := (Z * Z)%type.

(** A band: the value at a pixel, or [None] where the pixel is masked. *)
Definition Raster := Pixel -> option Q.
Definition Bands := list (string * Raster).

(** An image of COPERNICUS/S2_CLOUD_PROBABILITY. *)
Record CloudImage := {
  cp_index : string;
  cp_time : Date;
  cp_footprint : Geometry;
  cp_bands : Bands
}.

(** An image of COPERNICUS/S2_SR_HARMONIZED with the two properties the
    script attaches: ['s2cloudless'] (by the join) and
    ['CLOUDY_PERCENT_AOI'] (by [set_cloudiness]). *)
Record Image := {
  system_index : string;
  system_time_start : Date;
  footprint : Geometry;
  CLOUDY_PIXEL_PERCENTAGE : Q;
  MEAN_SOLAR_AZIMUTH_ANGLE : Q;
  bands : Bands;
  s2cloudless : option CloudImage;
  CLOUDY_PERCENT_AOI : option Q
}.

(** A fire of the feature collection [incendios]. *)
Record Feature := {
  id : string;
  initialdat : Date;
  finaldate : Date;
  geometry : Geometry
}.

(** The arguments of [ee.batch.Export.image.toDrive]. *)
Record Task := {
  image : Bands;
  description : string;
  folder : string;
  fileNamePrefix : string;
  region : Geometry;
  crs : string;
  scale : Z;
  maxPixels : Z
}.

(** A cell of a CSV row: the script writes strings and numbers. *)
Inductive Cell :=
| Text (s : string)
| Number (q : Q).

Definition Row := list Cell.

Definition Exn := string.

(** The lines the script prints, with their arguments. *)
Inductive Msg :=
| NoImagesFor (nombre : string)
| CloudPercentageError (nombre : string) (e : Exn)
| CloudsIn (nombre : string) (cloud_percentage : Q)
| Retrying (nombre : string)
| ImageDiscarded (nombre : string)
| Exporting (nombre : string)
| EpsgFor (incendioID : string) (epsg : string)
| ErrorIn (nombre : string) (e : Exn).

(** The blocking requests to the service: every [getInfo()] of the script
    and [task.start()]. *)
Inductive Call :=
| FeaturesGetInfo
| IdGetInfo (feature : Feature)
| HusoGetInfo (aoi : Geometry)
| YearGetInfo (d : Date)
| MonthGetInfo (d : Date)
| SizeGetInfo (aoi : Geometry) (start end_ : Date)
| CloudPercentageGetInfo (img : option Image) (aoi : Geometry)
| TaskStart (task : Task).

(** The remote service. *)
Record Service := {
  S2_SR_HARMONIZED : list Image;
  S2_CLOUD_PROBABILITY : list CloudImage;
  incendios : list Feature;
  (** [filterBounds]: does the footprint meet the geometry *)
  intersects : Geometry -> Geometry -> bool;
  (** [aoi.centroid(1).coordinates().get(0)] *)
  centroid_lon : Geometry -> Q;
  (** the pixels of the 10 m grid that [reduceRegion] visits *)
  region_pixels : Geometry -> list Pixel;
  directionalDistanceTransform : Raster -> Q -> Q -> Raster;
  focal_min : Raster -> Q -> Raster;
  focal_max : Raster -> Q -> Raster;
  median : list Image -> Bands;
  clip : Bands -> Geometry -> Bands;
  (** the requests the service refuses, with the error it raises *)
  fault : Call -> option Exn
}.

(* ------------------------------------------------------------------ *)
(** ** Effects: the output file, the export jobs, the console

    The script writes rows to the CSV writer, submits export tasks,
    prints, and blocks on requests to the service, any of which may raise.
    [try_export_image] calls itself, so the model carries fuel and
    [OutOfFuel] marks a run that needed more. *)

Record State := mkState {
  incendios_features : list Feature;  (* the list fetched by the main block *)
  rows : list Row;                    (* resultados_nubes.csv *)
  tasks : list Task;                  (* export jobs started *)
  stdout : list Msg;
  calls : list Call                   (* requests sent, in order *)
}.

Inductive Outcome (A : Type) :=
| Return (a : A)
| Raise (e : Exn)
| OutOfFuel.

Arguments Return {A} a.
Arguments Raise {A} e.
Arguments OutOfFuel {A}.

Definition M (A : Type) := State -> Outcome A * State.

Definition ret {A} (a : A) : M A := fun s => (Return a, s).

Definition bind {A B} (m : M A) (k : A -> M B) : M B :=
  fun s =>
    match m s with
    | (Return a, s') => k a s'
    | (Raise e, s') => (Raise e, s')
    | (OutOfFuel, s') => (OutOfFuel, s')
    end.

Notation "x <- m ;; k" := (bind m (fun x => k))
  (at level 61, m at next level, right associativity).
Notation "m ;;; k" := (bind m (fun _ => k))
  (at level 61, right associativity).

(** [try: m except Exception as e: h e] *)
Definition try_except {A} (m : M A) (h : Exn -> M A) : M A :=
  fun s =>
    match m s with
    | (Raise e, s') => h e s'
    | r => r
    end.

Definition s_print (m : Msg) (s : State) : State :=
  mkState (incendios_features s) (rows s) (tasks s) (stdout s ++ [m]) (calls s).

Definition s_row (r : Row) (s : State) : State :=
  mkState (incendios_features s) (rows s ++ [r]) (tasks s) (stdout s) (calls s).

Definition s_call (c : Call) (s : State) : State :=
  mkState (incendios_features s) (rows s) (tasks s) (stdout s) (calls s ++ [c]).

Definition s_task (t : Task) (s : State) : State :=
  mkState (incendios_features s) (rows s) (tasks s ++ [t]) (stdout s) (calls s).

Definition print (m : Msg) : M unit := fun s => (Return tt, s_print m s).

Definition writerow (r : Row) : M unit := fun s => (Return tt, s_row r s).

(** [for x in l: body x] *)
Fixpoint for_each {A} (l : list A) (body : A -> M unit) : M unit :=
  match l with
  | [] => ret tt
  | x :: rest => body x ;;; for_each rest body
  end.

(** [range(a, b)] *)
Definition range (a b : Z) : list Z :=
  map (fun i => a + Z.of_nat i) (seq 0 (Z.to_nat (b - a))).

(** [str(n)] for an integer *)
Definition str (n : Z) : string := NilZero.string_of_int (Z.to_int n).

(** [f"{n:02d}"] *)
Definition format_02d (n : Z) : string :=
  if (0 <=? n) && (n <? 10) then String.append "0" (str n) else str n.

(* ------------------------------------------------------------------ *)
(** ** Per-pixel operators of the client library *)

Module Img.

Definition indicator (b : bool) : Q := if b then 1%Q else 0%Q.

Definition empty : Raster := fun _ => None.

Definition constant (c : Q) : Raster := fun _ => Some c.

Fixpoint lookup (name : string) (bs : Bands) : option Raster :=
  match bs with
  | [] => None
  | (n, r) :: rest => if String.eqb n name then Some r else lookup name rest
  end.

(** [img.select(name)]; a band that is absent is valid nowhere. *)
Definition select (bs : Bands) (name : string) : Raster :=
  match lookup name bs with
  | Some r => r
  | None => empty
  end.

Definition lift1 (f : Q -> Q) (r : Raster) : Raster :=
  fun p => option_map f (r p).

Definition lift2 (f : Q -> Q -> Q) (a b : Raster) : Raster :=
  fun p =>
    match a p, b p with
    | Some x, Some y => Some (f x y)
    | _, _ => None
    end.

Definition Qltb (x y : Q) : bool := negb (Qle_bool y x).

Definition gt (r : Raster) (c : Q) : Raster :=
  lift1 (fun v => indicator (Qltb c v)) r.

Definition lt (r : Raster) (c : Q) : Raster :=
  lift1 (fun v => indicator (Qltb v c)) r.

Definition neq (r : Raster) (c : Q) : Raster :=
  lift1 (fun v => indicator (negb (Qeq_bool v c))) r.

Definition Not (r : Raster) : Raster :=
  lift1 (fun v => indicator (Qeq_bool v 0)) r.

Definition multiply : Raster -> Raster -> Raster := lift2 Qmult.

Definition add : Raster -> Raster -> Raster := lift2 Qplus.

(** [r.mask()]: 1 where [r] is valid, 0 elsewhere; valid everywhere. *)
Definition mask (r : Raster) : Raster :=
  fun p =>
    match r p with
    | Some _ => Some 1%Q
    | None => Some 0%Q
    end.

(** [r.updateMask(m)]: [r] where it is valid and [m] is valid and
    non-zero. *)
Definition updateMask (r m : Raster) : Raster :=
  fun p =>
    match r p, m p with
    | Some v, Some w => if Qeq_bool w 0 then None else Some v
    | _, _ => None
    end.

(** [r.reduceRegion(ee.Reducer.sum(), geometry, scale=10)] over the
    pixels of the region: masked pixels do not contribute. *)
Fixpoint sum_over (r : Raster) (ps : list Pixel) : Q :=
  match ps with
  | [] => 0%Q
  | p :: rest =>
      match r p with
      | Some v => (v + sum_over r rest)%Q
      | None => sum_over r rest
      end
  end.

(** [img.addBands(new)] *)
Definition addBands (bs new : Bands) : Bands := bs ++ new.

(** [img.select('B.*')]: the bands whose name starts with [B]. *)
Definition select_B (bs : Bands) : Bands :=
  filter (fun nr => String.prefix "B" (fst nr)) bs.

End Img.

Section Script.

Variable ee : Service.

Definition reduceRegion_sum (r : Raster) (aoi : Geometry) : Q :=
  Img.sum_over r (region_pixels ee aoi).

(* ------------------------------------------------------------------ *)
(** ** Loading and merging the two collections *)

Definition filterBounds (aoi : Geometry) (col : list Image) : list Image :=
  filter (fun i => intersects ee (footprint i) aoi) col.

Definition filterDate (start end_ : Date) (col : list Image) : list Image :=
  filter (fun i => date_leb start (system_time_start i)
                   && date_ltb (system_time_start i) end_) col.

Definition filter_lte_CLOUDY_PIXEL_PERCENTAGE (c : Q) (col : list Image)
  : list Image :=
  filter (fun i => Qle_bool (CLOUDY_PIXEL_PERCENTAGE i) c) col.

Definition cp_filterBounds (aoi : Geometry) (col : list CloudImage) :=
  filter (fun i => intersects ee (cp_footprint i) aoi) col.

Definition cp_filterDate (start end_ : Date) (col : list CloudImage) :=
  filter (fun i => date_leb start (cp_time i) && date_ltb (cp_time i) end_) col.

Definition set_s2cloudless (i : Image) (c : CloudImage) : Image :=
  {| system_index := system_index i;
     system_time_start := system_time_start i;
     footprint := footprint i;
     CLOUDY_PIXEL_PERCENTAGE := CLOUDY_PIXEL_PERCENTAGE i;
     MEAN_SOLAR_AZIMUTH_ANGLE := MEAN_SOLAR_AZIMUTH_ANGLE i;
     bands := bands i;
     s2cloudless := Some c;
     CLOUDY_PERCENT_AOI := CLOUDY_PERCENT_AOI i |}.

(** [ee.Join.saveFirst('s2cloudless')] on equal ['system:index']: a primary
    image is kept when a secondary one matches, with the first match
    saved as a property. *)
Fixpoint saveFirst_apply (primary : list Image) (secondary : list CloudImage)
  : list Image :=
  match primary with
  | [] => []
  | p :: rest =>
      match find (fun c => String.eqb (system_index p) (cp_index c)) secondary with
      | Some c => set_s2cloudless p c :: saveFirst_apply rest secondary
      | None => saveFirst_apply rest secondary
      end
  end.

Definition get_s2_sr_cld_col (aoi : Geometry) (start_date end_date : Date)
  : list Image :=
  let s2_sr_col :=
    filter_lte_CLOUDY_PIXEL_PERCENTAGE CLOUD_FILTER
      (filterDate start_date end_date
         (filterBounds aoi (S2_SR_HARMONIZED ee))) in
  let s2_cloudless_col :=
    cp_filterDate start_date end_date
      (cp_filterBounds aoi (S2_CLOUD_PROBABILITY ee)) in
  saveFirst_apply s2_sr_col s2_cloudless_col.

(* ------------------------------------------------------------------ *)
(** ** Cloud and shadow masking *)

Definition with_bands (i : Image) (bs : Bands) : Image :=
  {| system_index := system_index i;
     system_time_start := system_time_start i;
     footprint := footprint i;
     CLOUDY_PIXEL_PERCENTAGE := CLOUDY_PIXEL_PERCENTAGE i;
     MEAN_SOLAR_AZIMUTH_ANGLE := MEAN_SOLAR_AZIMUTH_ANGLE i;
     bands := bs;
     s2cloudless := s2cloudless i;
     CLOUDY_PERCENT_AOI := CLOUDY_PERCENT_AOI i |}.

(** [ee.Image(img.get('s2cloudless')).select('probability')] *)
Definition s2cloudless_probability (img : Image) : Raster :=
  match s2cloudless img with
  | Some c => Img.select (cp_bands c) "probability"
  | None => Img.empty
  end.

Definition add_cloud_bands (img : Image) : Image :=
  let cld_prb := s2cloudless_probability img in
  let is_cloud := Img.gt cld_prb CLD_PRB_THRESH in
  with_bands img
    (Img.addBands (bands img) [("cloud_prob", cld_prb); ("clouds", is_cloud)]).

Definition add_shadow_bands (img : Image) : Image :=
  let not_water := Img.neq (Img.select (bands img) "SCL") 6 in
  let dark_pixels :=
    Img.multiply (Img.lt (Img.select (bands img) "B8") (NIR_DRK_THRESH * 10000)%Q)
      not_water in
  let shadow_azimuth := (90 - MEAN_SOLAR_AZIMUTH_ANGLE img)%Q in
  let cld_proj :=
    Img.mask
      (directionalDistanceTransform ee (Img.select (bands img) "clouds")
         shadow_azimuth (CLD_PRJ_DIST * 10)%Q) in
  let shadows := Img.multiply cld_proj dark_pixels in
  with_bands img
    (Img.addBands (bands img)
       [("dark_pixels", dark_pixels); ("cloud_transform", cld_proj);
        ("shadows", shadows)]).

Definition add_cld_shdw_mask (img : Image) : Image :=
  let img_cloud := add_cloud_bands img in
  let img_shadow := add_shadow_bands img_cloud in
  let is_cld_shdw :=
    focal_max ee
      (focal_min ee
         (Img.gt (Img.add (Img.select (bands img_shadow) "clouds")
                          (Img.select (bands img_shadow) "shadows")) 0)
         2)
      (BUFFER * 2 / 20)%Q in
  with_bands img_shadow
    (Img.addBands (bands img_shadow) [("cloudmask", is_cld_shdw)]).

Definition apply_cld_shdw_mask (img : Image) : Image :=
  let not_cld_shdw := Img.Not (Img.select (bands img) "cloudmask") in
  with_bands img
    (map (fun nr => (fst nr, Img.updateMask (snd nr) not_cld_shdw))
         (Img.select_B (bands img))).

(* ------------------------------------------------------------------ *)
(** ** Cloudiness in the AOI

    Percentages are exact rationals.  A region without a valid pixel gives
    [0 / 0], which is [0] in [Q]. *)

Definition get_cloud_percentage (image : Image) (aoi : Geometry) : Q :=
  let cloud_prob := s2cloudless_probability image in
  let cloud_mask := Img.gt cloud_prob CLD_PRB_THRESH in
  let valid_mask := Img.gt (Img.mask (Img.select (bands image) "B8")) 0 in
  let cloud_mask := Img.updateMask cloud_mask valid_mask in
  let cloud_area := reduceRegion_sum cloud_mask aoi in
  let total_area :=
    reduceRegion_sum (Img.updateMask (Img.constant 1) valid_mask) aoi in
  (cloud_area / total_area * 100)%Q.

(* ------------------------------------------------------------------ *)
(** ** Best image by cloud percentage *)

Definition set_CLOUDY_PERCENT_AOI (i : Image) (v : Q) : Image :=
  {| system_index := system_index i;
     system_time_start := system_time_start i;
     footprint := footprint i;
     CLOUDY_PIXEL_PERCENTAGE := CLOUDY_PIXEL_PERCENTAGE i;
     MEAN_SOLAR_AZIMUTH_ANGLE := MEAN_SOLAR_AZIMUTH_ANGLE i;
     bands := bands i;
     s2cloudless := s2cloudless i;
     CLOUDY_PERCENT_AOI := Some v |}.

Definition set_cloudiness (aoi : Geometry) (img : Image) : Image :=
  let cloud_prob := s2cloudless_probability img in
  let cloud_mask := Img.gt cloud_prob CLD_PRB_THRESH in
  let valid_mask := Img.gt (Img.mask (Img.select (bands img) "B8")) 0 in
  let cloud_mask := Img.updateMask cloud_mask valid_mask in
  let cloud_area := reduceRegion_sum cloud_mask aoi in
  let total_area :=
    reduceRegion_sum (Img.updateMask (Img.constant 1) valid_mask) aoi in
  let cloud_pct := (cloud_area / total_area * 100)%Q in
  set_CLOUDY_PERCENT_AOI img cloud_pct.

(** The sort key of [col.sort('CLOUDY_PERCENT_AOI')]. *)
Definition sort_key (i : Image) : Q :=
  match CLOUDY_PERCENT_AOI i with
  | Some v => v
  | None => 0%Q
  end.

(** [col.sort(property)]: ascending and stable. *)
Fixpoint sort_insert (x : Image) (l : list Image) : list Image :=
  match l with
  | [] => [x]
  | y :: rest =>
      if Qle_bool (sort_key x) (sort_key y) then x :: y :: rest
      else y :: sort_insert x rest
  end.

Fixpoint sort_CLOUDY_PERCENT_AOI (col : list Image) : list Image :=
  match col with
  | [] => []
  | x :: rest => sort_insert x (sort_CLOUDY_PERCENT_AOI rest)
  end.

(** [col.first()]: null on an empty collection. *)
Definition first (col : list Image) : option Image := hd_error col.

Definition get_best_image_by_cloud_cover (col : list Image) (aoi : Geometry)
  : option Image :=
  let col_with_cloud := map (set_cloudiness aoi) col in
  let best_img := first (sort_CLOUDY_PERCENT_AOI col_with_cloud) in
  best_img.

(* ------------------------------------------------------------------ *)
(** ** Cloud-free composite *)

Definition getCloudFreeComposite (aoi : Geometry) (start end_ : Date) : Bands :=
  let col :=
    map apply_cld_shdw_mask
      (map add_cld_shdw_mask (get_s2_sr_cld_col aoi start end_)) in
  clip ee (median ee col) aoi.

(* ------------------------------------------------------------------ *)
(** ** Requests to the service *)

(** A blocking request: it is sent, and either the service raises or the
    client receives the value. *)
Definition getInfo {A} (c : Call) (v : A) : M A :=
  fun s =>
    match fault ee c with
    | Some e => (Raise e, s_call c s)
    | None => (Return v, s_call c s)
    end.

(** [task.start()] *)
Definition task_start (t : Task) : M unit :=
  fun s =>
    match fault ee (TaskStart t) with
    | Some e => (Raise e, s_call (TaskStart t) s)
    | None => (Return tt, s_task t (s_call (TaskStart t) s))
    end.

(** [get_cloud_percentage(img, aoi).getInfo()]; [img] is null when the
    collection was empty, and the service rejects the request. *)
Definition get_cloud_percentage_getInfo (img : option Image) (aoi : Geometry)
  : M Q :=
  match img with
  | Some i => getInfo (CloudPercentageGetInfo img aoi) (get_cloud_percentage i aoi)
  | None =>
      fun s =>
        (Raise (match fault ee (CloudPercentageGetInfo img aoi) with
                | Some e => e
                | None => "null image"
                end),
         s_call (CloudPercentageGetInfo img aoi) s)
  end.

(* ------------------------------------------------------------------ *)
(** ** Export *)

Definition export_task (nombre : string) (aoi : Geometry) (start end_ : Date)
    (epsg : string) : Task :=
  {| image := getCloudFreeComposite aoi start end_;
     description := String.append "S2_" nombre;
     folder := "Incendios_Europa_años";
     fileNamePrefix := nombre;
     region := aoi;
     crs := epsg;
     scale := 20;
     maxPixels := 10000000000000 |}.

Fixpoint try_export_image (fuel : nat) (nombre : string) (aoi : Geometry)
    (start end_ : Date) (epsg : string) : M bool :=
  match fuel with
  | O => fun s => (OutOfFuel, s)
  | S fuel' =>
      let col := get_s2_sr_cld_col aoi start end_ in
      n <- getInfo (SizeGetInfo aoi start end_) (List.length col) ;;
      if Nat.eqb n 0 then
        print (NoImagesFor nombre) ;;;
        writerow [Text nombre; Text ""; Text "No images"] ;;;
        ret false
      else
        let img := get_best_image_by_cloud_cover col aoi in
        r <- try_except
               (v <- get_cloud_percentage_getInfo img aoi ;; ret (inl v))
               (fun e => ret (inr e)) ;;
        match r with
        | inr e =>
            print (CloudPercentageError nombre e) ;;;
            writerow [Text nombre; Text ""; Text "Cloud error"] ;;;
            ret false
        | inl cloud_percentage =>
            print (CloudsIn nombre cloud_percentage) ;;;
            if Img.Qltb UMBRAL_NUBES cloud_percentage then
              m <- getInfo (MonthGetInfo end_) (month end_) ;;
              if m =? 6 then
                print (Retrying nombre) ;;;
                y <- getInfo (YearGetInfo end_) (year end_) ;;
                let end_july := fromYMD y 7 15 in
                try_export_image fuel' nombre aoi start end_july epsg
              else
                print (ImageDiscarded nombre) ;;;
                writerow [Text nombre; Number cloud_percentage; Text "Discarded"] ;;;
                ret false
            else
              let task := export_task nombre aoi start end_ epsg in
              task_start task ;;;
              print (Exporting nombre) ;;;
              writerow [Text nombre; Number cloud_percentage; Text "Exported"] ;;;
              ret true
        end
  end.

(* ------------------------------------------------------------------ *)
(** ** Fire loop and main block *)

Definition fire_huso (aoi : Geometry) : Z :=
  let lon := centroid_lon ee aoi in
  Qfloor ((lon + 180) / 6)%Q + 1.

(** The body of the loop over the years in [process_feature]. *)
Definition fire_year (fuel : nat) (incendioID : string) (aoi : Geometry)
    (epsg : string) (anio : Z) : M unit :=
  let start := fromYMD anio 5 15 in
  let end_ := fromYMD anio 6 15 in
  let nombre := String.append incendioID (String.append "_" (str anio)) in
  try_except
    (try_export_image fuel nombre aoi start end_ epsg ;;; ret tt)
    (fun e => print (ErrorIn nombre e)).

Definition process_feature (fuel : nat) (feature : Feature) : M unit :=
  incendioID <- getInfo (IdGetInfo feature) (id feature) ;;
  let fechaInicio := initialdat feature in
  let geom := geometry feature in
  let aoi := Buffer (Bounds geom) 3000%Q in
  huso <- getInfo (HusoGetInfo aoi) (fire_huso aoi) ;;
  let epsg := String.append "EPSG:258" (format_02d huso) in
  print (EpsgFor incendioID epsg) ;;;
  anioInicio <- getInfo (YearGetInfo fechaInicio) (year fechaInicio) ;;
  for_each (range (anioInicio + 1) 2024) (fire_year fuel incendioID aoi epsg).

(** [open("resultados_nubes.csv", mode='w')]: the file starts empty. *)
Definition open_w : M unit :=
  fun s =>
    (Return tt,
     mkState (incendios_features s) [] (tasks s) (stdout s) (calls s)).

Definition set_incendios_features (fs : list Feature) : M unit :=
  fun s => (Return tt, mkState fs (rows s) (tasks s) (stdout s) (calls s)).

Definition header : Row := [Text "Name"; Text "% Clouds"; Text "Status"].

Definition main (fuel : nat) : M unit :=
  open_w ;;;
  writerow header ;;;
  fs <- getInfo FeaturesGetInfo (incendios ee) ;;
  set_incendios_features fs ;;;
  for_each fs (process_feature fuel).

End Script.

(* ------------------------------------------------------------------ *)
(** ** A small service to run the script on *)

Module Toy.

Definition square : Geometry := Polygon [(0, 40); (1, 40); (1, 41); (0, 41)]%Q.

Definition grid : list Pixel := [(0, 0); (0, 1); (1, 0); (1, 1)].

(** a raster constant on the grid *)
Definition flat (v : Q) : Raster := fun _ => Some v.

(** [hi] at pixel (0,0), [lo] elsewhere *)
Definition spot (hi lo : Q) : Raster :=
  fun p => if (fst p =? 0) && (snd p =? 0) then Some hi else Some lo.

Definition s2 (idx : string) (t : Date) (cpp : Q) : Image :=
  {| system_index := idx;
     system_time_start := t;
     footprint := square;
     CLOUDY_PIXEL_PERCENTAGE := cpp;
     MEAN_SOLAR_AZIMUTH_ANGLE := 150;
     bands := [("B4", flat 900); ("B8", flat 2500); ("SCL", flat 4)];
     s2cloudless := None;
     CLOUDY_PERCENT_AOI := None |}.

Definition cld (idx : string) (t : Date) (prob : Raster) : CloudImage :=
  {| cp_index := idx;
     cp_time := t;
     cp_footprint := square;
     cp_bands := [("probability", prob)] |}.

Definition fire (name : string) (y : Z) : Feature :=
  {| id := name;
     initialdat := fromYMD y 8 1;
     finaldate := fromYMD y 8 9;
     geometry := square |}.

Definition service (imgs : list Image) (clds : list CloudImage)
    (fires : list Feature) (flt : Call -> option Exn) : Service :=
  {| S2_SR_HARMONIZED := imgs;
     S2_CLOUD_PROBABILITY := clds;
     incendios := fires;
     intersects := fun _ _ => true;
     centroid_lon := fun _ => 1 # 2;
     region_pixels := fun _ => grid;
     directionalDistanceTransform := fun r _ _ => r;
     focal_min := fun r _ => r;
     focal_max := fun r _ => r;
     median := fun col => match col with [] => [] | i :: _ => bands i end;
     clip := fun bs _ => bs;
     fault := flt |}.

Definition no_fault : Call -> option Exn := fun _ => None.

(** June 2022: a scene with one cloudy pixel in four, a clear one, and one
    over the metadata limit. *)
Definition imgs_2022 : list Image :=
  [s2 "A" (fromYMD 2022 5 20) 10; s2 "B" (fromYMD 2022 6 1) 40;
   s2 "C" (fromYMD 2022 6 3) 70].

Definition clds_2022 : list CloudImage :=
  [cld "A" (fromYMD 2022 5 20) (spot 80 10); cld "B" (fromYMD 2022 6 1) (flat 10);
   cld "C" (fromYMD 2022 6 3) (flat 5)].

Definition s0 : State := mkState [] [] [] [] [].

Definition aoi : Geometry := Buffer (Bounds square) 3000.
Definition may15 (y : Z) : Date := fromYMD y 5 15.
Definition jun15 (y : Z) : Date := fromYMD y 6 15.

(** A fire of 2021 over the archive of 2022, every request answered. *)
Definition srv : Service :=
  service imgs_2022 clds_2022 [fire "F1" 2021] no_fault.

(** The joined collection of the window May 15 - June 15, 2022. *)
Definition col : list Image := get_s2_sr_cld_col srv aoi (may15 2022) (jun15 2022).

(** Only the scene with a cloudy pixel in the primary window, and a clear
    one in late June. *)
Definition imgs_cloudy : list Image :=
  [s2 "A" (fromYMD 2022 5 20) 10; s2 "D" (fromYMD 2022 6 20) 5].

Definition clds_cloudy : list CloudImage :=
  [cld "A" (fromYMD 2022 5 20) (spot 80 10); cld "D" (fromYMD 2022 6 20) (flat 3)].

Definition srv_cloudy : Service :=
  service imgs_cloudy clds_cloudy [fire "F1" 2021] no_fault.

Definition scene_A : Image :=
  set_s2cloudless (s2 "A" (fromYMD 2022 5 20) 10)
    (cld "A" (fromYMD 2022 5 20) (spot 80 10)).

Definition scene_B : Image :=
  set_s2cloudless (s2 "B" (fromYMD 2022 6 1) 40)
    (cld "B" (fromYMD 2022 6 1) (flat 10)).

(** The cloud-percentage request is refused. *)
Definition srv_cloud_fault : Service :=
  service imgs_2022 clds_2022 [fire "F1" 2021]
    (fun c => match c with
              | CloudPercentageGetInfo _ _ => Some "Computation timed out."
              | _ => None
              end).

(** The size request of a window ending in 2022 is refused. *)
Definition srv_size_fault : Service :=
  service imgs_2022 clds_2022 [fire "F1" 2021]
    (fun c => match c with
              | SizeGetInfo _ _ e =>
                  if year e =? 2022 then Some "Computation timed out." else None
              | _ => None
              end).

(** Starting a task is refused. *)
Definition srv_start_fault : Service :=
  service imgs_2022 clds_2022 [fire "F1" 2021]
    (fun c => match c with
              | TaskStart _ => Some "Too many tasks."
              | _ => None
              end).

(** A fire of 2023 and a clear scene in the window of 2024. *)
Definition srv_2024 : Service :=
  service [s2 "E" (fromYMD 2024 6 1) 2] [cld "E" (fromYMD 2024 6 1) (flat 1)]
    [fire "F9" 2023] no_fault.

(** A season with a single scene, one pixel in four cloudy, and nothing
    else until mid July. *)
Definition srv_overcast : Service :=
  service [s2 "A" (fromYMD 2022 5 20) 10]
    [cld "A" (fromYMD 2022 5 20) (spot 80 10)]
    [fire "F1" 2021] no_fault.

End Toy.

(* ------------------------------------------------------------------ *)
(** ** Vocabulary of the properties *)

(** Pixel predicates the percentage is stated with. *)
Definition valid_B8 (img : Image) (p : Pixel) : bool :=
  match Img.select (bands img) "B8" p with
  | Some _ => true
  | None => false
  end.

Definition cloudy (img : Image) (p : Pixel) : bool :=
  match s2cloudless_probability img p with
  | Some v => Img.Qltb CLD_PRB_THRESH v
  | None => false
  end.

Definition count (f : Pixel -> bool) (ps : list Pixel) : Q :=
  inject_Z (Z.of_nat (List.length (filter f ps))).

(** The possible results of [try_export_image nombre aoi start _ epsg]
    started with rows [rs] and tasks [ts]. *)
Inductive export_outcome (ee : Service) (nombre : string) (aoi : Geometry)
    (start : Date) (epsg : string) (rs : list Row) (ts : list Task)
  : Outcome bool -> State -> Prop :=
| EO_no_images s' :
    rows s' = rs ++ [[Text nombre; Text ""; Text "No images"]] ->
    tasks s' = ts ->
    export_outcome ee nombre aoi start epsg rs ts (Return false) s'
| EO_cloud_error s' :
    rows s' = rs ++ [[Text nombre; Text ""; Text "Cloud error"]] ->
    tasks s' = ts ->
    export_outcome ee nombre aoi start epsg rs ts (Return false) s'
| EO_discarded s' pct :
    Img.Qltb UMBRAL_NUBES pct = true ->
    rows s' = rs ++ [[Text nombre; Number pct; Text "Discarded"]] ->
    tasks s' = ts ->
    export_outcome ee nombre aoi start epsg rs ts (Return false) s'
| EO_exported s' pct end_ :
    Img.Qltb UMBRAL_NUBES pct = false ->
    rows s' = rs ++ [[Text nombre; Number pct; Text "Exported"]] ->
    tasks s' = ts ++ [export_task ee nombre aoi start end_ epsg] ->
    export_outcome ee nombre aoi start epsg rs ts (Return true) s'
| EO_raised s' e :
    rows s' = rs ->
    tasks s' = ts ->
    export_outcome ee nombre aoi start epsg rs ts (Raise e) s'
| EO_out_of_fuel s' :
    rows s' = rs ->
    tasks s' = ts ->
    export_outcome ee nombre aoi start epsg rs ts OutOfFuel s'.

(** The state once the collection size and the best image's cloud
    percentage have been fetched and the percentage printed. *)
Definition s_scored (ee : Service) (nombre : string) (aoi : Geometry)
    (start end_ : Date) (img : Image) (s : State) : State :=
  s_print (CloudsIn nombre (get_cloud_percentage ee img aoi))
    (s_call (CloudPercentageGetInfo (Some img) aoi)
       (s_call (SizeGetInfo aoi start end_) s)).

(** [s'] is [s] with rows, tasks and calls appended that satisfy [QR],
    [QT] and [QC]; the fetched fire list is the same. *)
Definition extends (QR : Row -> Prop) (QT : Task -> Prop) (QC : Call -> Prop)
    (s s' : State) : Prop :=
  incendios_features s' = incendios_features s
  /\ (exists nr, rows s' = rows s ++ nr /\ Forall QR nr)
  /\ (exists nt, tasks s' = tasks s ++ nt /\ Forall QT nt)
  /\ (exists nc, calls s' = calls s ++ nc /\ Forall QC nc).

(** The four statuses of a data row. *)
Definition statuses : list string :=
  ["Exported"; "Discarded"; "No images"; "Cloud error"].

(** A data row: name, cloud percentage (a number or the empty string),
    status. *)
Definition data_row (row : Row) : Prop :=
  exists name pct st,
    row = [Text name; pct; Text st] /\ In st statuses
    /\ (pct = Text "" \/ exists q, pct = Number q).

(** The AOI a request is made with, for the requests that have one. *)
Definition call_uses (aoi : Geometry) (c : Call) : Prop :=
  match c with
  | HusoGetInfo a => a = aoi
  | SizeGetInfo a _ _ => a = aoi
  | CloudPercentageGetInfo _ a => a = aoi
  | TaskStart t => region t = aoi
  | FeaturesGetInfo | IdGetInfo _ | YearGetInfo _ | MonthGetInfo _ => True
  end.

Definition task_uses (aoi : Geometry) (epsg : string) (t : Task) : Prop :=
  region t = aoi /\ crs t = epsg.

(** [s'] is [s] with at most [n] rows appended. *)
Definition rows_added (n : nat) (s s' : State) : Prop :=
  exists nr, rows s' = rows s ++ nr /\ (List.length nr <= n)%nat.

(** How many times a console log says that a fire-year is retried. *)
Definition retries (l : list Msg) : nat :=
  List.length
    (filter (fun m => match m with Retrying _ => true | _ => false end) l).

(** The years [process_feature] tries for a fire. *)
Definition fire_years (feature : Feature) : list Z :=
  range (year (initialdat feature) + 1) 2024.

(** The two characters [f"{n:02d}"] gives for [0 <= n < 100]. *)
Definition two_digits (n : Z) : string :=
  String (ascii_of_nat (48 + Z.to_nat (n / 10)))
    (String (ascii_of_nat (48 + Z.to_nat (n mod 10))) EmptyString).

(** [filterDate(start, end_)]: from [start] on and before [end_]. *)
Definition in_window (start end_ t : Date) : bool :=
  date_leb start t && date_ltb t end_.

(** The mask [apply_cld_shdw_mask] reads from a masked image. *)
Definition cloudmask_of (ee : Service) (img : Image) : Raster :=
  Img.select (bands (add_cld_shdw_mask ee img)) "cloudmask".

(** The names of the rows with status Exported, in file order. *)
Definition exported_names (rs : list Row) : list string :=
  flat_map
    (fun r =>
       match r with
       | [Text n; _; Text st] => if String.eqb st "Exported" then [n] else []
       | _ => []
       end) rs.

(** A data row whose percentage field agrees with its status. *)
Definition row_consistent (row : Row) : Prop :=
  exists name,
    row = [Text name; Text ""; Text "No images"]
    \/ row = [Text name; Text ""; Text "Cloud error"]
    \/ (exists q, (UMBRAL_NUBES < q)%Q
                  /\ row = [Text name; Number q; Text "Discarded"])
    \/ (exists q, (q <= UMBRAL_NUBES)%Q
                  /\ row = [Text name; Number q; Text "Exported"]).

(** [s'] is [s] with consistent rows and tasks appended, the tasks being
    those of the appended Exported rows. *)
Definition paired (s s' : State) : Prop :=
  exists nr nt,
    rows s' = rows s ++ nr
    /\ tasks s' = tasks s ++ nt
    /\ Forall row_consistent nr
    /\ exported_names nr = map fileNamePrefix nt.

(** How many of the requests are [task.start()]. *)
Definition task_starts (l : list Call) : nat :=
  List.length
    (filter (fun c => match c with TaskStart _ => true | _ => false end) l).

(** [s'] is [s] with at most [n] requests appended. *)
Definition calls_added (n : nat) (s s' : State) : Prop :=
  exists sent, calls s' = calls s ++ sent /\ (List.length sent <= n)%nat.

(** Running the script by hand: unfold the monad, then split on what the
    service answers and on the tests of the script. *)
Ltac unfold_script :=
  unfold get_cloud_percentage_getInfo, bind, getInfo, try_except,
    task_start, print, writerow, ret.

Ltac step_script :=
  cbn beta iota;
  match goal with
  | |- context [match fault ?e ?c with _ => _ end] =>
      destruct (fault e c) eqn:?
  | |- context [match get_best_image_by_cloud_cover ?e ?c ?a with _ => _ end] =>
      destruct (get_best_image_by_cloud_cover e c a) eqn:?
  | |- context [if ?b then _ else _] => destruct b eqn:?
  end.

(* ------------------------------------------------------------------ *)
(** ** Selection of the best image *)

Section Selection.

Variable ee : Service.

Lemma count_cons f p ps :
  (count f (p :: ps) == (if f p then 1 else 0) + count f ps)%Q.
Proof.
  unfold count; simpl. destruct (f p); simpl List.length.
  - rewrite Nat2Z.inj_succ. unfold Z.succ.
    rewrite inject_Z_plus. simpl (inject_Z 1). ring.
  - ring.
Qed.

Lemma cloud_area_count img ps :
  (Img.sum_over
     (Img.updateMask (Img.gt (s2cloudless_probability img) CLD_PRB_THRESH)
        (Img.gt (Img.mask (Img.select (bands img) "B8")) 0)) ps
   == count (fun p => valid_B8 img p && cloudy img p) ps)%Q.
Proof.
  induction ps as [|p ps IH].
  - reflexivity.
  - rewrite count_cons. set (c := count _ ps) in *. simpl Img.sum_over.
    unfold Img.updateMask at 1, Img.gt at 1 2, Img.lift1, Img.mask at 1.
    unfold valid_B8, cloudy.
    destruct (s2cloudless_probability img p) as [v|];
      destruct (Img.select (bands img) "B8" p) as [w|]; simpl;
      rewrite ?IH; try ring.
    unfold Img.indicator.
    destruct (Img.Qltb CLD_PRB_THRESH v); simpl; ring.
Qed.

Lemma total_area_count img ps :
  (Img.sum_over
     (Img.updateMask (Img.constant 1)
        (Img.gt (Img.mask (Img.select (bands img) "B8")) 0)) ps
   == count (valid_B8 img) ps)%Q.
Proof.
  induction ps as [|p ps IH].
  - reflexivity.
  - rewrite count_cons. set (c := count _ ps) in *. simpl Img.sum_over.
    unfold Img.updateMask at 1, Img.gt at 1, Img.lift1, Img.mask at 1,
      Img.constant at 1.
    unfold valid_B8.
    destruct (Img.select (bands img) "B8" p) as [w|]; simpl;
      rewrite ?IH; ring.
Qed.

Lemma get_cloud_percentage_counts img aoi :
  (get_cloud_percentage ee img aoi
   == count (fun p => valid_B8 img p && cloudy img p) (region_pixels ee aoi)
      / count (valid_B8 img) (region_pixels ee aoi) * 100)%Q.
Proof.
  unfold get_cloud_percentage, reduceRegion_sum.
  rewrite cloud_area_count, total_area_count. reflexivity.
Qed.

Lemma sort_key_set_cloudiness aoi img :
  sort_key (set_cloudiness ee aoi img) = get_cloud_percentage ee img aoi.
Proof. reflexivity. Qed.

Lemma set_cloudiness_eq aoi img :
  set_cloudiness ee aoi img
  = set_CLOUDY_PERCENT_AOI img (get_cloud_percentage ee img aoi).
Proof. reflexivity. Qed.

Lemma sort_first_min (l : list Image) :
  l <> [] ->
  exists b, first (sort_CLOUDY_PERCENT_AOI l) = Some b
            /\ In b l
            /\ forall x, In x l -> (sort_key b <= sort_key x)%Q.
Proof.
  induction l as [|x t IH]; [congruence|intros _].
  destruct t as [|y t'].
  - exists x; simpl; repeat split; auto.
    intros z [<-|[]]; apply Qle_refl.
  - destruct IH as (b & Hb & Hin & Hmin); [discriminate|].
    change (sort_CLOUDY_PERCENT_AOI (x :: y :: t'))
      with (sort_insert x (sort_CLOUDY_PERCENT_AOI (y :: t'))).
    destruct (sort_CLOUDY_PERCENT_AOI (y :: t')) as [|b' r] eqn:E;
      [discriminate|].
    injection Hb as ->. simpl sort_insert.
    destruct (Qle_bool (sort_key x) (sort_key b)) eqn:C.
    + apply Qle_bool_iff in C. exists x; repeat split; [left; easy|].
      intros z [<-|Hz]; [apply Qle_refl|].
      eapply Qle_trans; [exact C|auto].
    + assert (sort_key b <= sort_key x)%Q as C'.
      { apply Qlt_le_weak, Qnot_le_lt. intro H.
        apply Qle_bool_iff in H. congruence. }
      exists b; repeat split; [right; easy|].
      intros z [<-|Hz]; auto.
Qed.

Lemma saveFirst_apply_In i primary secondary :
  In i (saveFirst_apply primary secondary) ->
  exists p c, In p primary /\ i = set_s2cloudless p c.
Proof.
  induction primary as [|p rest IH]; simpl; [easy|].
  destruct (find _ secondary) as [c|].
  - intros [<-|H]; [exists p, c; auto|].
    destruct (IH H) as (p' & c' & ? & ?); exists p', c'; auto.
  - intro H. destruct (IH H) as (p' & c' & ? & ?); exists p', c'; auto.
Qed.

Lemma get_s2_sr_cld_col_CLOUD_FILTER aoi start end_ i :
  In i (get_s2_sr_cld_col ee aoi start end_) ->
  (CLOUDY_PIXEL_PERCENTAGE i <= CLOUD_FILTER)%Q.
Proof.
  unfold get_s2_sr_cld_col. intro H.
  apply saveFirst_apply_In in H. destruct H as (p & c & Hp & ->).
  unfold filter_lte_CLOUDY_PIXEL_PERCENTAGE in Hp.
  apply filter_In in Hp. destruct Hp as [_ Hp].
  apply Qle_bool_iff in Hp. exact Hp.
Qed.

(** C1.  On a non-empty collection [get_best_image_by_cloud_cover] returns
    an image of the collection (with its AOI percentage attached as
    ['CLOUDY_PERCENT_AOI']) whose AOI cloud percentage is no greater than
    that of any image of the collection; that percentage is the number of
    AOI pixels valid in B8 whose cloud probability is strictly above
    [CLD_PRB_THRESH], divided by the number of AOI pixels valid in B8,
    times 100; and every image of the joined collection has
    ['CLOUDY_PIXEL_PERCENTAGE'] at most [CLOUD_FILTER]. *)
Theorem get_best_image_by_cloud_cover_lowest (col : list Image) (aoi : Geometry) :
  col <> [] ->
  (exists img,
      In img col
      /\ get_best_image_by_cloud_cover ee col aoi
         = Some (set_CLOUDY_PERCENT_AOI img (get_cloud_percentage ee img aoi))
      /\ forall other, In other col ->
           (get_cloud_percentage ee img aoi
            <= get_cloud_percentage ee other aoi)%Q)
  /\ (forall img,
        (get_cloud_percentage ee img aoi
         == count (fun p => valid_B8 img p && cloudy img p) (region_pixels ee aoi)
            / count (valid_B8 img) (region_pixels ee aoi) * 100)%Q)
  /\ (CLD_PRB_THRESH == 30)%Q /\ (CLOUD_FILTER == 50)%Q
  /\ (forall start end_ i,
        In i (get_s2_sr_cld_col ee aoi start end_) ->
        (CLOUDY_PIXEL_PERCENTAGE i <= CLOUD_FILTER)%Q).
Proof.
  intro Hne. split; [|split; [|split; [|split]]].
  - destruct (sort_first_min (map (set_cloudiness ee aoi) col))
      as (b & Hb & Hin & Hmin).
    { destruct col; [congruence|discriminate]. }
    apply in_map_iff in Hin. destruct Hin as (img & <- & Hin).
    exists img. split; [exact Hin|]. split.
    + unfold get_best_image_by_cloud_cover. rewrite Hb.
      now rewrite set_cloudiness_eq.
    + intros other Ho.
      rewrite <- !sort_key_set_cloudiness. apply Hmin.
      apply in_map. exact Ho.
  - intro img. apply get_cloud_percentage_counts.
  - reflexivity.
  - reflexivity.
  - intros. eapply get_s2_sr_cld_col_CLOUD_FILTER; eauto.
Qed.

(** C9.  The percentage [get_cloud_percentage] returns for an image is the
    value [set_cloudiness] stores as ['CLOUDY_PERCENT_AOI'], it is not
    changed by that property being set, and so the image chosen by
    [get_best_image_by_cloud_cover] carries as its ranking score the
    percentage that [try_export_image] then compares with the tolerance. *)
Theorem get_cloud_percentage_is_ranking_score (col : list Image) (aoi : Geometry) :
  (forall img,
      CLOUDY_PERCENT_AOI (set_cloudiness ee aoi img)
      = Some (get_cloud_percentage ee img aoi)
      /\ get_cloud_percentage ee (set_cloudiness ee aoi img) aoi
         = get_cloud_percentage ee img aoi)
  /\ (forall best,
        get_best_image_by_cloud_cover ee col aoi = Some best ->
        CLOUDY_PERCENT_AOI best = Some (get_cloud_percentage ee best aoi)).
Proof.
  split; [intro img; split; reflexivity|].
  intros best H. unfold get_best_image_by_cloud_cover in H.
  destruct col as [|c0 rest]; [discriminate|].
  destruct (sort_first_min (map (set_cloudiness ee aoi) (c0 :: rest)))
    as (b & Hb & Hin & _); [discriminate|].
  rewrite Hb in H. injection H as <-.
  apply in_map_iff in Hin. destruct Hin as (img & <- & _). reflexivity.
Qed.

End Selection.

(* ------------------------------------------------------------------ *)
(** ** What one call of [try_export_image] can do *)

Section TryExport.

Variable ee : Service.

Lemma try_export_image_outcome nombre aoi start epsg fuel :
  forall end_ s,
    export_outcome ee nombre aoi start epsg (rows s) (tasks s)
      (fst (try_export_image ee fuel nombre aoi start end_ epsg s))
      (snd (try_export_image ee fuel nombre aoi start end_ epsg s)).
Proof.
  induction fuel as [|fuel IH]; intros end_ s.
  - apply EO_out_of_fuel; reflexivity.
  - cbn [try_export_image]. unfold_script.
    repeat step_script; cbn [fst snd];
      try (apply EO_raised; reflexivity);
      try (apply EO_no_images; reflexivity);
      try (apply EO_cloud_error; reflexivity);
      try (eapply EO_discarded; [eassumption|reflexivity|reflexivity]);
      try (eapply EO_exported; [eassumption|reflexivity|reflexivity]).
    all: match goal with
         | |- context [try_export_image _ _ _ _ _ ?e _ ?s1] => exact (IH e s1)
         end.
Qed.

Lemma Qltb_lt x y : Img.Qltb x y = true <-> (x < y)%Q.
Proof.
  unfold Img.Qltb. rewrite negb_true_iff. split.
  - intro H. apply Qnot_le_lt. intro C. apply Qle_bool_iff in C. congruence.
  - intro H. destruct (Qle_bool y x) eqn:C; [|reflexivity].
    apply Qle_bool_iff in C. exfalso. exact (Qlt_not_le _ _ H C).
Qed.

Lemma Qltb_le x y : Img.Qltb x y = false <-> (y <= x)%Q.
Proof.
  unfold Img.Qltb. rewrite negb_false_iff. apply Qle_bool_iff.
Qed.

Lemma best_image_nonempty col aoi img :
  get_best_image_by_cloud_cover ee col aoi = Some img ->
  Nat.eqb (List.length col) 0 = false.
Proof. destruct col; [discriminate|reflexivity]. Qed.

(** C2.  When the requests answer and the best image's AOI percentage is
    above [UMBRAL_NUBES] (15): if the end month of the window is 6, the
    call is the same call with the end of the window moved to July 15 of
    the same year (start unchanged); otherwise the row
    [nombre, percentage, "Discarded"] is written and the result is False. *)
Theorem try_export_image_retry_or_discard
    (fuel : nat) (nombre : string) (aoi : Geometry) (start end_ : Date)
    (epsg : string) (s : State) (img : Image) :
  fault ee (SizeGetInfo aoi start end_) = None ->
  get_best_image_by_cloud_cover ee (get_s2_sr_cld_col ee aoi start end_) aoi
    = Some img ->
  fault ee (CloudPercentageGetInfo (Some img) aoi) = None ->
  (UMBRAL_NUBES < get_cloud_percentage ee img aoi)%Q ->
  fault ee (MonthGetInfo end_) = None ->
  (UMBRAL_NUBES == 15)%Q
  /\ (month end_ = 6 ->
      fault ee (YearGetInfo end_) = None ->
      try_export_image ee (S fuel) nombre aoi start end_ epsg s
      = try_export_image ee fuel nombre aoi start (fromYMD (year end_) 7 15) epsg
          (s_call (YearGetInfo end_)
             (s_print (Retrying nombre)
                (s_call (MonthGetInfo end_)
                   (s_scored ee nombre aoi start end_ img s)))))
  /\ (month end_ <> 6 ->
      try_export_image ee (S fuel) nombre aoi start end_ epsg s
      = (Return false,
         s_row [Text nombre; Number (get_cloud_percentage ee img aoi);
                Text "Discarded"]
           (s_print (ImageDiscarded nombre)
              (s_call (MonthGetInfo end_)
                 (s_scored ee nombre aoi start end_ img s))))).
Proof.
  intros Hsize Hbest Hpct Hgt Hmonth.
  apply Qltb_lt in Hgt. pose proof (best_image_nonempty _ _ _ Hbest) as Hne.
  split; [reflexivity|]. split.
  - intros H6 Hyear. cbn [try_export_image]. unfold_script.
    rewrite Hsize. cbn beta iota. rewrite Hne, Hbest. cbn beta iota.
    rewrite Hpct. cbn beta iota. rewrite Hgt. cbn beta iota.
    rewrite Hmonth. cbn beta iota. rewrite H6. cbn beta iota.
    rewrite Hyear. reflexivity.
  - intros H6. apply Z.eqb_neq in H6. cbn [try_export_image]. unfold_script.
    rewrite Hsize. cbn beta iota. rewrite Hne, Hbest. cbn beta iota.
    rewrite Hpct. cbn beta iota. rewrite Hgt. cbn beta iota.
    rewrite Hmonth. cbn beta iota. rewrite H6. reflexivity.
Qed.

Lemma try_export_image_S_congr nombre aoi start epsg n m :
  (forall y s1,
      try_export_image ee n nombre aoi start (fromYMD y 7 15) epsg s1
      = try_export_image ee m nombre aoi start (fromYMD y 7 15) epsg s1) ->
  forall end_ s,
    try_export_image ee (S n) nombre aoi start end_ epsg s
    = try_export_image ee (S m) nombre aoi start end_ epsg s.
Proof.
  intros H end_ s. cbn [try_export_image]. unfold_script.
  repeat step_script; try reflexivity. all: apply H.
Qed.

Lemma try_export_image_S_fuel nombre aoi start epsg n :
  (forall y s1,
      fst (try_export_image ee n nombre aoi start (fromYMD y 7 15) epsg s1)
      <> OutOfFuel) ->
  forall end_ s,
    fst (try_export_image ee (S n) nombre aoi start end_ epsg s) <> OutOfFuel.
Proof.
  intros H end_ s. cbn [try_export_image]. unfold_script.
  repeat step_script; cbn [fst]; try discriminate. all: apply H.
Qed.

Lemma try_export_image_july nombre aoi start epsg k y s1 :
  fst (try_export_image ee (1 + k) nombre aoi start (fromYMD y 7 15) epsg s1)
  <> OutOfFuel
  /\ try_export_image ee (1 + k) nombre aoi start (fromYMD y 7 15) epsg s1
     = try_export_image ee 1 nombre aoi start (fromYMD y 7 15) epsg s1.
Proof.
  cbn [try_export_image Nat.add]. unfold_script.
  repeat step_script; cbn [fst]; (split; [discriminate|reflexivity])
    || (exfalso; match goal with
                 | H : (month (fromYMD _ 7 15) =? 6) = true |- _ =>
                     cbn in H; discriminate
                 end).
Qed.

Lemma try_export_image_enough_fuel nombre aoi start epsg k end_ s :
  fst (try_export_image ee (2 + k) nombre aoi start end_ epsg s) <> OutOfFuel.
Proof.
  change (2 + k)%nat with (S (1 + k)).
  apply try_export_image_S_fuel. intros y s1. apply try_export_image_july.
Qed.

Lemma try_export_image_fuel_2 nombre aoi start epsg k end_ s :
  try_export_image ee (2 + k) nombre aoi start end_ epsg s
  = try_export_image ee 2 nombre aoi start end_ epsg s.
Proof.
  change (2 + k)%nat with (S (1 + k)). change 2%nat with (S 1).
  apply try_export_image_S_congr. intros y s1. apply try_export_image_july.
Qed.

Lemma try_export_image_retries_2 nombre aoi start epsg end_ s :
  exists printed,
    stdout (snd (try_export_image ee 2 nombre aoi start end_ epsg s))
    = stdout s ++ printed
    /\ (retries printed <= 1)%nat.
Proof.
  cbn [try_export_image]. unfold_script.
  repeat step_script; cbn [snd];
    first
      [ exfalso;
        match goal with
        | H : (month (fromYMD _ 7 15) =? 6) = true |- _ =>
            cbn in H; discriminate
        end
      | exists []; rewrite app_nil_r; split;
        [reflexivity|unfold retries; simpl; lia]
      | simpl stdout; rewrite <- ?app_assoc; eexists;
        split; [reflexivity|unfold retries; simpl; lia] ].
Qed.

(** C7.  [try_export_image] returns with fuel 2 whatever its input, and
    more fuel changes nothing: it calls itself at most once, and prints
    the retry line at most once.  The nested call has its window end on
    July 15, whose month is not 6, so it already returns with fuel 1,
    without a further call. *)
Theorem try_export_image_terminates
    (k : nat) (nombre : string) (aoi : Geometry) (start end_ : Date)
    (epsg : string) (s : State) :
  fst (try_export_image ee (2 + k) nombre aoi start end_ epsg s) <> OutOfFuel
  /\ try_export_image ee (2 + k) nombre aoi start end_ epsg s
     = try_export_image ee 2 nombre aoi start end_ epsg s
  /\ (exists printed,
        stdout (snd (try_export_image ee (2 + k) nombre aoi start end_ epsg s))
        = stdout s ++ printed
        /\ (retries printed <= 1)%nat)
  /\ (forall y s1,
        month (fromYMD y 7 15) <> 6
        /\ fst (try_export_image ee (1 + k) nombre aoi start (fromYMD y 7 15)
                  epsg s1) <> OutOfFuel
        /\ try_export_image ee (1 + k) nombre aoi start (fromYMD y 7 15) epsg s1
           = try_export_image ee 1 nombre aoi start (fromYMD y 7 15) epsg s1).
Proof.
  split; [apply try_export_image_enough_fuel|].
  split; [apply try_export_image_fuel_2|].
  split; [rewrite try_export_image_fuel_2; apply try_export_image_retries_2|].
  intros y s1. split; [cbn; discriminate|apply try_export_image_july].
Qed.

(** C10.  Given enough fuel, [try_export_image] ends in exactly one of five
    ways: True with the task started and the row [.., pct, "Exported"];
    False with the row [.., "", "No images"]; False with the row
    [.., "", "Cloud error"]; False with the row [.., pct, "Discarded"]; or
    an exception with no row.  Only the first submits a job, so True is
    returned if and only if a task was started and an "Exported" row
    written. *)
Theorem try_export_image_true_iff_exported
    (k : nat) (nombre : string) (aoi : Geometry) (start end_ : Date)
    (epsg : string) (s : State) :
  let r := try_export_image ee (2 + k) nombre aoi start end_ epsg s in
  ((fst r = Return true
    /\ exists pct task,
         rows (snd r) = rows s ++ [[Text nombre; Number pct; Text "Exported"]]
         /\ tasks (snd r) = tasks s ++ [task])
   \/ (fst r = Return false /\ tasks (snd r) = tasks s
       /\ rows (snd r) = rows s ++ [[Text nombre; Text ""; Text "No images"]])
   \/ (fst r = Return false /\ tasks (snd r) = tasks s
       /\ rows (snd r) = rows s ++ [[Text nombre; Text ""; Text "Cloud error"]])
   \/ (fst r = Return false /\ tasks (snd r) = tasks s
       /\ exists pct,
            rows (snd r)
            = rows s ++ [[Text nombre; Number pct; Text "Discarded"]])
   \/ (exists e, fst r = Raise e /\ tasks (snd r) = tasks s
                 /\ rows (snd r) = rows s))
  /\ (fst r = Return true
      <-> exists pct task,
            rows (snd r) = rows s ++ [[Text nombre; Number pct; Text "Exported"]]
            /\ tasks (snd r) = tasks s ++ [task]).
Proof.
  intro r.
  pose proof (try_export_image_outcome nombre aoi start epsg (2 + k) end_ s)
    as H.
  pose proof (try_export_image_enough_fuel nombre aoi start epsg k end_ s)
    as Hfuel.
  fold r in H, Hfuel.
  assert (forall (t : Task), tasks s ++ [t] <> tasks s) as Hgrow.
  { intros t E. apply (f_equal (@List.length _)) in E.
    rewrite length_app in E. simpl in E. lia. }
  destruct H as [s' Hr Ht|s' Hr Ht|s' pct Hp Hr Ht|s' pct e' Hp Hr Ht
                |s' e Hr Ht|s' Hr Ht].
  - split; [right; left; auto|].
    split; [discriminate|]. intros (p & t & _ & E). rewrite Ht in E.
    symmetry in E. now apply Hgrow in E.
  - split; [right; right; left; auto|].
    split; [discriminate|]. intros (p & t & _ & E). rewrite Ht in E.
    symmetry in E. now apply Hgrow in E.
  - split; [right; right; right; left; eauto|].
    split; [discriminate|]. intros (p & t & _ & E). rewrite Ht in E.
    symmetry in E. now apply Hgrow in E.
  - split; [left; eauto|]. split; eauto.
  - split; [right; right; right; right; eauto|].
    split; [discriminate|]. intros (p & t & _ & E). rewrite Ht in E.
    symmetry in E. now apply Hgrow in E.
  - congruence.
Qed.

Lemma try_export_image_exports_run
    (fuel : nat) (nombre : string) (aoi : Geometry) (start end_ : Date)
    (epsg : string) (s : State) (img : Image) :
  fault ee (SizeGetInfo aoi start end_) = None ->
  get_best_image_by_cloud_cover ee (get_s2_sr_cld_col ee aoi start end_) aoi
    = Some img ->
  fault ee (CloudPercentageGetInfo (Some img) aoi) = None ->
  (get_cloud_percentage ee img aoi <= UMBRAL_NUBES)%Q ->
  fault ee (TaskStart (export_task ee nombre aoi start end_ epsg)) = None ->
  let task := export_task ee nombre aoi start end_ epsg in
  try_export_image ee (S fuel) nombre aoi start end_ epsg s
  = (Return true,
     s_row [Text nombre; Number (get_cloud_percentage ee img aoi);
            Text "Exported"]
       (s_print (Exporting nombre)
          (s_task task
             (s_call (TaskStart task)
                (s_scored ee nombre aoi start end_ img s)))))
  /\ image task
     = clip ee
         (median ee
            (map (apply_cld_shdw_mask)
               (map (add_cld_shdw_mask ee)
                  (get_s2_sr_cld_col ee aoi start end_))))
         aoi
  /\ crs task = epsg
  /\ region task = aoi.
Proof.
  intros Hsize Hbest Hpct Hle Hstart task.
  apply Qltb_le in Hle. pose proof (best_image_nonempty _ _ _ Hbest) as Hne.
  split; [|repeat split].
  cbn [try_export_image]. unfold_script.
  rewrite Hsize. cbn beta iota. rewrite Hne, Hbest. cbn beta iota.
  rewrite Hpct. cbn beta iota. rewrite Hle. cbn beta iota.
  rewrite Hstart. reflexivity.
Qed.

End TryExport.

(* ------------------------------------------------------------------ *)
(** ** What a run adds to the state *)

Section Extends.

Variable QR : Row -> Prop.
Variable QT : Task -> Prop.
Variable QC : Call -> Prop.

Lemma extends_refl s : extends QR QT QC s s.
Proof.
  repeat split; exists []; rewrite app_nil_r; auto.
Qed.

Lemma extends_print m s s1 : extends QR QT QC s s1 -> extends QR QT QC s (s_print m s1).
Proof. intro H; exact H. Qed.

Lemma extends_row r s s1 : QR r -> extends QR QT QC s s1 -> extends QR QT QC s (s_row r s1).
Proof.
  intros Hr (Hf & (nr & Er & Hnr) & Ht & Hc).
  repeat split; auto.
  exists (nr ++ [r]). simpl. rewrite Er, app_assoc. split; auto.
  apply Forall_app; auto.
Qed.

Lemma extends_task t s s1 : QT t -> extends QR QT QC s s1 -> extends QR QT QC s (s_task t s1).
Proof.
  intros Hq (Hf & Hr & (nt & Et & Hnt) & Hc).
  repeat split; auto.
  exists (nt ++ [t]). simpl. rewrite Et, app_assoc. split; auto.
  apply Forall_app; auto.
Qed.

Lemma extends_call c s s1 : QC c -> extends QR QT QC s s1 -> extends QR QT QC s (s_call c s1).
Proof.
  intros Hq (Hf & Hr & Ht & (nc & Ec & Hnc)).
  repeat split; auto.
  exists (nc ++ [c]). simpl. rewrite Ec, app_assoc. split; auto.
  apply Forall_app; auto.
Qed.

Lemma for_each_extends {A} (body : A -> M unit) (l : list A) :
  (forall x s0 s, In x l -> extends QR QT QC s0 s -> extends QR QT QC s0 (snd (body x s))) ->
  forall s0 s, extends QR QT QC s0 s -> extends QR QT QC s0 (snd (for_each l body s)).
Proof.
  induction l as [|x rest IH]; intros Hbody s0 s Hs; [exact Hs|].
  cbn [for_each]. unfold bind.
  pose proof (Hbody x s0 s (or_introl eq_refl) Hs) as Hx.
  destruct (body x s) as [[[]| |] s1]; cbn [snd] in *; auto.
  apply IH; auto. intros; apply Hbody; auto. now right.
Qed.

End Extends.

Lemma extends_weaken (QR QR' : Row -> Prop) (QT QT' : Task -> Prop)
    (QC QC' : Call -> Prop) s s' :
  (forall r, QR r -> QR' r) -> (forall t, QT t -> QT' t) ->
  (forall c, QC c -> QC' c) ->
  extends QR QT QC s s' -> extends QR' QT' QC' s s'.
Proof.
  intros HR HT HC (Hf & (nr & Er & Hnr) & (nt & Et & Hnt) & (nc & Ec & Hnc)).
  repeat split; auto.
  - exists nr; split; auto. eapply Forall_impl; eauto.
  - exists nt; split; auto. eapply Forall_impl; eauto.
  - exists nc; split; auto. eapply Forall_impl; eauto.
Qed.

Section Run.

Variable ee : Service.

Ltac solve_extends :=
  repeat first
    [ assumption
    | apply extends_print
    | apply extends_row;
      [do 3 eexists; split; [reflexivity|];
       split; [simpl; tauto|eauto]|]
    | apply extends_task; [split; reflexivity|]
    | apply extends_call; [exact I || reflexivity|] ].

Lemma try_export_image_extends nombre aoi start epsg fuel :
  forall end_ s0 s,
    extends data_row (task_uses aoi epsg) (call_uses aoi) s0 s ->
    extends data_row (task_uses aoi epsg) (call_uses aoi) s0
      (snd (try_export_image ee fuel nombre aoi start end_ epsg s)).
Proof.
  induction fuel as [|fuel IH]; intros end_ s0 s Hs; [exact Hs|].
  cbn [try_export_image]. unfold_script.
  repeat step_script; cbn [snd]; try solve [solve_extends].
  all: apply IH; solve_extends.
Qed.

Lemma fire_year_extends fuel incendioID aoi epsg anio s0 s :
  extends data_row (task_uses aoi epsg) (call_uses aoi) s0 s ->
  extends data_row (task_uses aoi epsg) (call_uses aoi) s0
    (snd (fire_year ee fuel incendioID aoi epsg anio s)).
Proof.
  intro Hs. unfold fire_year, try_except, bind, ret, print.
  match goal with
  | |- context [try_export_image ee fuel ?n aoi ?a ?b epsg s] =>
      pose proof (try_export_image_extends n aoi a epsg fuel b s0 s Hs) as H;
      destruct (try_export_image ee fuel n aoi a b epsg s) as [[b'| |] s1]
  end; cbn [snd] in *; solve_extends.
Qed.

Lemma process_feature_extends fuel feature s0 s :
  let aoi := Buffer (Bounds (geometry feature)) 3000 in
  let epsg := String.append "EPSG:258" (format_02d (fire_huso ee aoi)) in
  extends data_row (task_uses aoi epsg) (call_uses aoi) s0 s ->
  extends data_row (task_uses aoi epsg) (call_uses aoi) s0
    (snd (process_feature ee fuel feature s)).
Proof.
  intros aoi epsg Hs. unfold process_feature. unfold_script.
  repeat step_script; cbn [snd]; try solve [solve_extends].
  apply for_each_extends; [|solve_extends].
  intros anio s1 s2 _ H. apply fire_year_extends. exact H.
Qed.

(** *** Rows written *)

Lemma rows_added_0 s s' : rows s' = rows s -> rows_added 0 s s'.
Proof. intro H. exists []. rewrite app_nil_r. auto. Qed.

Lemma rows_added_trans n m s s1 s2 :
  rows_added n s s1 -> rows_added m s1 s2 -> rows_added (n + m) s s2.
Proof.
  intros (a & Ea & La) (b & Eb & Lb). exists (a ++ b).
  rewrite Eb, Ea, app_assoc, length_app. split; [reflexivity|lia].
Qed.

Lemma rows_added_from n s s1 s' :
  rows s = rows s1 -> rows_added n s1 s' -> rows_added n s s'.
Proof. intros E (a & Ea & La). exists a. rewrite E. auto. Qed.

Lemma rows_added_le n m s s' :
  (n <= m)%nat -> rows_added n s s' -> rows_added m s s'.
Proof. intros H (a & Ea & La). exists a. split; [auto|lia]. Qed.

Lemma try_export_image_rows_added fuel nombre aoi start end_ epsg s :
  rows_added 1 s (snd (try_export_image ee fuel nombre aoi start end_ epsg s)).
Proof.
  destruct (try_export_image_outcome ee nombre aoi start epsg fuel end_ s)
    as [s' Hr Ht|s' Hr Ht|s' pct Hp Hr Ht|s' pct e' Hp Hr Ht
       |s' e Hr Ht|s' Hr Ht];
    try (eexists; split; [eassumption|simpl; lia]);
    apply rows_added_le with 0%nat; auto; now apply rows_added_0.
Qed.

Lemma fire_year_rows_added fuel incendioID aoi epsg anio s :
  rows_added 1 s (snd (fire_year ee fuel incendioID aoi epsg anio s)).
Proof.
  unfold fire_year, try_except, bind, ret, print.
  match goal with
  | |- context [try_export_image ee fuel ?n aoi ?a ?b epsg s] =>
      pose proof (try_export_image_rows_added fuel n aoi a b epsg s) as H;
      destruct (try_export_image ee fuel n aoi a b epsg s) as [[b'| |] s1]
  end; cbn [snd] in *; exact H.
Qed.

Lemma for_each_rows_added {A} (w : A -> nat) (body : A -> M unit) (l : list A) :
  (forall x s, rows_added (w x) s (snd (body x s))) ->
  forall s, rows_added (list_sum (map w l)) s (snd (for_each l body s)).
Proof.
  intro Hbody. induction l as [|x rest IH]; intro s.
  - now apply rows_added_0.
  - cbn [for_each map]. unfold bind.
    change (list_sum (w x :: map w rest))
      with (w x + list_sum (map w rest))%nat.
    pose proof (Hbody x s) as Hx.
    destruct (body x s) as [[[]| |] s1]; cbn [snd] in *.
    + eapply rows_added_trans; [exact Hx|apply IH].
    + eapply rows_added_le; [|exact Hx]. lia.
    + eapply rows_added_le; [|exact Hx]. lia.
Qed.

Lemma list_sum_ones {A} (l : list A) :
  list_sum (map (fun _ => 1%nat) l) = List.length l.
Proof. induction l; simpl; auto. Qed.

Lemma process_feature_rows_added fuel feature s :
  rows_added (List.length (fire_years feature)) s
    (snd (process_feature ee fuel feature s)).
Proof.
  unfold process_feature. unfold_script.
  repeat step_script; cbn [snd];
    try (apply rows_added_le with 0%nat; [lia|now apply rows_added_0]).
  unfold fire_years. rewrite <- list_sum_ones.
  match goal with
  | |- rows_added _ _ (snd (for_each _ _ ?s1)) =>
      apply rows_added_from with s1; [reflexivity|]
  end.
  apply for_each_rows_added. intros anio s1. apply fire_year_rows_added.
Qed.

(** *** Requests sent *)

Lemma try_export_image_first_call fuel nombre aoi start end_ epsg s :
  exists more,
    calls (snd (try_export_image ee (S fuel) nombre aoi start end_ epsg s))
    = calls s ++ SizeGetInfo aoi start end_ :: more.
Proof.
  cbn [try_export_image]. unfold_script.
  repeat step_script; cbn [snd];
    try (simpl; rewrite <- ?app_assoc; simpl; eexists; reflexivity).
  all: match goal with
       | |- context [try_export_image _ ?f ?n ?a ?st ?e ?ep ?s1] =>
           destruct (try_export_image_extends n a st ep f e s1 s1
                       (extends_refl _ _ _ s1))
             as (_ & _ & _ & (nc & Ec & _));
           rewrite Ec
       end; simpl; rewrite <- ?app_assoc; simpl; eexists; reflexivity.
Qed.

Lemma fire_year_visits k incendioID aoi epsg anio s :
  fst (fire_year ee (2 + k) incendioID aoi epsg anio s) = Return tt
  /\ exists more,
       calls (snd (fire_year ee (2 + k) incendioID aoi epsg anio s))
       = calls s ++ more
       /\ In (SizeGetInfo aoi (fromYMD anio 5 15) (fromYMD anio 6 15)) more.
Proof.
  unfold fire_year, try_except, bind, ret, print.
  match goal with
  | |- context [try_export_image ee (2 + k) ?n aoi ?a ?b epsg s] =>
      pose proof (try_export_image_enough_fuel ee n aoi a epsg k b s) as Hf;
      destruct (try_export_image_first_call (1 + k) n aoi a b epsg s)
        as (more & Hc);
      change (S (1 + k)) with (2 + k)%nat in Hc;
      destruct (try_export_image ee (2 + k) n aoi a b epsg s) as [[b'| |] s1]
  end; cbn [fst snd] in *; try congruence.
  - split; [reflexivity|]. eexists; split; [exact Hc|now left].
  - split; [reflexivity|]. eexists; split; [exact Hc|now left].
Qed.

Lemma for_each_visits {A} (C : A -> Call -> Prop) (body : A -> M unit)
    (l : list A) :
  (forall x s, In x l ->
     fst (body x s) = Return tt
     /\ exists more, calls (snd (body x s)) = calls s ++ more
                     /\ forall c, C x c -> In c more) ->
  forall s,
    fst (for_each l body s) = Return tt
    /\ exists more, calls (snd (for_each l body s)) = calls s ++ more
                    /\ forall x c, In x l -> C x c -> In c more.
Proof.
  induction l as [|x rest IH]; intros Hbody s.
  - split; [reflexivity|]. exists []. rewrite app_nil_r. split; [reflexivity|].
    intros ? ? [].
  - cbn [for_each]. unfold bind.
    destruct (Hbody x s (or_introl eq_refl)) as (Hret & more & Hc & Hin).
    destruct (body x s) as [o s1]; cbn [fst snd] in *. subst o.
    destruct (IH (fun y s' Hy => Hbody y s' (or_intror Hy)) s1)
      as (Hret' & more' & Hc' & Hin').
    split; [exact Hret'|]. exists (more ++ more').
    rewrite Hc', Hc, app_assoc. split; [reflexivity|].
    intros y c [<-|Hy] Hyc; apply in_or_app; [left|right]; eauto.
Qed.

Lemma process_feature_visits k feature s :
  fault ee (IdGetInfo feature) = None ->
  fault ee (HusoGetInfo (Buffer (Bounds (geometry feature)) 3000)) = None ->
  fault ee (YearGetInfo (initialdat feature)) = None ->
  fst (process_feature ee (2 + k) feature s) = Return tt
  /\ exists more,
       calls (snd (process_feature ee (2 + k) feature s)) = calls s ++ more
       /\ forall anio, In anio (fire_years feature) ->
            In (SizeGetInfo (Buffer (Bounds (geometry feature)) 3000)
                  (fromYMD anio 5 15) (fromYMD anio 6 15)) more.
Proof.
  intros Hid Hhuso Hyear. unfold process_feature. unfold_script.
  rewrite Hid. cbn beta iota. rewrite Hhuso. cbn beta iota.
  rewrite Hyear. cbn beta iota.
  match goal with
  | |- context [for_each ?l ?body ?s1] =>
      destruct (for_each_visits
                  (fun anio c =>
                     c = SizeGetInfo (Buffer (Bounds (geometry feature)) 3000)
                           (fromYMD anio 5 15) (fromYMD anio 6 15))
                  body l) with (s := s1)
        as (Hret & more & Hc & Hin)
  end.
  { intros x s' _.
    destruct (fire_year_visits k (id feature)
                (Buffer (Bounds (geometry feature)) 3000)
                (String.append "EPSG:258"
                   (format_02d
                      (fire_huso ee (Buffer (Bounds (geometry feature)) 3000))))
                x s') as (H1 & more & H2 & H3).
    split; [exact H1|]. exists more. split; [exact H2|].
    intros c ->. exact H3. }
  split; [exact Hret|].
  eexists. split.
  - rewrite Hc. simpl. rewrite <- !app_assoc. reflexivity.
  - intros anio Ha. apply in_or_app. right. apply in_or_app. right.
    apply in_or_app. right. eapply Hin; [exact Ha|reflexivity].
Qed.

Lemma In_range a b y : In y (range a b) <-> a <= y < b.
Proof.
  unfold range. rewrite in_map_iff. split.
  - intros (i & <- & Hi). apply in_seq in Hi. lia.
  - intro H. exists (Z.to_nat (y - a)). split; [lia|].
    apply in_seq. lia.
Qed.

(** *** The main block *)

Lemma for_each_process_feature_extends fuel fs s0 s :
  extends data_row (fun _ => True) (fun _ => True) s0 s ->
  extends data_row (fun _ => True) (fun _ => True) s0
    (snd (for_each fs (process_feature ee fuel) s)).
Proof.
  apply for_each_extends. intros f s1 s2 _ H.
  destruct (process_feature_extends fuel f s2 s2 (extends_refl _ _ _ s2))
    as (Hf & (nr & Er & Hnr) & (nt & Et & _) & (nc & Ec & _)).
  destruct H as (Hf' & (nr' & Er' & Hnr') & (nt' & Et' & _) & (nc' & Ec' & _)).
  repeat split.
  - congruence.
  - exists (nr' ++ nr). rewrite Er, Er', app_assoc. split; [reflexivity|].
    apply Forall_app; auto.
  - exists (nt' ++ nt). rewrite Et, Et', app_assoc. split; [reflexivity|].
    apply Forall_forall; auto.
  - exists (nc' ++ nc). rewrite Ec, Ec', app_assoc. split; [reflexivity|].
    apply Forall_forall; auto.
Qed.

Lemma main_rows fuel s :
  exists data,
    rows (snd (main ee fuel s)) = header :: data
    /\ Forall data_row data
    /\ (List.length data <= List.length (flat_map fire_years (incendios ee)))%nat.
Proof.
  unfold main, open_w, set_incendios_features. unfold_script.
  destruct (fault ee FeaturesGetInfo) eqn:Hf; cbn beta iota.
  - exists []. cbn. repeat split; [constructor|lia].
  - match goal with
    | |- context [for_each ?l ?body ?s1] =>
        destruct (for_each_process_feature_extends fuel l s1 s1
                    (extends_refl _ _ _ s1))
          as (_ & (nr & Er & Hnr) & _);
        destruct (for_each_rows_added
                    (fun f => List.length (fire_years f)) body l
                    (process_feature_rows_added fuel) s1)
          as (nr' & Er' & Hlen)
    end.
    exists nr. rewrite Er. split; [reflexivity|]. split; [exact Hnr|].
    rewrite Er in Er'. apply app_inv_head in Er'. subst nr'.
    now rewrite length_flat_map.
Qed.

Lemma main_visits k s :
  fault ee FeaturesGetInfo = None ->
  (forall f, In f (incendios ee) ->
     fault ee (IdGetInfo f) = None
     /\ fault ee (HusoGetInfo (Buffer (Bounds (geometry f)) 3000)) = None
     /\ fault ee (YearGetInfo (initialdat f)) = None) ->
  fst (main ee (2 + k) s) = Return tt
  /\ forall f anio,
       In f (incendios ee) -> In anio (fire_years f) ->
       In (SizeGetInfo (Buffer (Bounds (geometry f)) 3000)
             (fromYMD anio 5 15) (fromYMD anio 6 15))
          (calls (snd (main ee (2 + k) s))).
Proof.
  intros Hfeat Hpre.
  unfold main, open_w, set_incendios_features. unfold_script.
  rewrite Hfeat. cbn beta iota.
  match goal with
  | |- context [for_each ?l ?body ?s1] =>
      destruct (for_each_visits
                  (fun f c =>
                     exists anio,
                       In anio (fire_years f)
                       /\ c = SizeGetInfo (Buffer (Bounds (geometry f)) 3000)
                                (fromYMD anio 5 15) (fromYMD anio 6 15))
                  body l) with (s := s1)
        as (Hret & more & Hc & Hin)
  end.
  { intros f s' Hf. destruct (Hpre f Hf) as (H1 & H2 & H3).
    destruct (process_feature_visits k f s' H1 H2 H3) as (Hr & more & Hc & Hin).
    split; [exact Hr|]. exists more. split; [exact Hc|].
    intros c (anio & Ha & ->). auto. }
  split; [exact Hret|].
  intros f anio Hf Ha. rewrite Hc. apply in_or_app. right.
  eapply Hin; eauto.
Qed.

Lemma get_s2_sr_cld_col_intersects aoi start end_ i :
  In i (get_s2_sr_cld_col ee aoi start end_) ->
  intersects ee (footprint i) aoi = true.
Proof.
  unfold get_s2_sr_cld_col. intro H.
  apply saveFirst_apply_In in H. destruct H as (p & c & Hp & ->).
  unfold filter_lte_CLOUDY_PIXEL_PERCENTAGE, filterDate, filterBounds in Hp.
  apply filter_In in Hp. destruct Hp as [Hp _].
  apply filter_In in Hp. destruct Hp as [Hp _].
  apply filter_In in Hp. destruct Hp as [_ Hp]. exact Hp.
Qed.

Lemma try_export_image_cloud_error fuel nombre aoi start end_ epsg s img e :
  fault ee (SizeGetInfo aoi start end_) = None ->
  get_best_image_by_cloud_cover ee (get_s2_sr_cld_col ee aoi start end_) aoi
    = Some img ->
  fault ee (CloudPercentageGetInfo (Some img) aoi) = Some e ->
  try_export_image ee (S fuel) nombre aoi start end_ epsg s
  = (Return false,
     s_row [Text nombre; Text ""; Text "Cloud error"]
       (s_print (CloudPercentageError nombre e)
          (s_call (CloudPercentageGetInfo (Some img) aoi)
             (s_call (SizeGetInfo aoi start end_) s)))).
Proof.
  intros Hsize Hbest Hpct.
  pose proof (best_image_nonempty _ _ _ _ Hbest) as Hne.
  cbn [try_export_image]. unfold_script.
  rewrite Hsize. cbn beta iota. rewrite Hne, Hbest. cbn beta iota.
  rewrite Hpct. reflexivity.
Qed.

Lemma fire_year_catches fuel incendioID aoi epsg anio s e :
  let nombre := String.append incendioID (String.append "_" (str anio)) in
  let r := try_export_image ee fuel nombre aoi (fromYMD anio 5 15)
             (fromYMD anio 6 15) epsg s in
  fst r = Raise e ->
  fire_year ee fuel incendioID aoi epsg anio s
  = (Return tt, s_print (ErrorIn nombre e) (snd r))
  /\ rows (snd (fire_year ee fuel incendioID aoi epsg anio s)) = rows s.
Proof.
  intros nombre r H.
  pose proof (try_export_image_outcome ee nombre aoi (fromYMD anio 5 15) epsg
                fuel (fromYMD anio 6 15) s) as Ho.
  fold r in Ho. unfold fire_year, try_except, bind, ret, print.
  fold nombre. fold r.
  destruct r as [o s1]. cbn [fst snd] in *. subst o.
  split; [reflexivity|]. cbn [snd]. inversion Ho; subst. assumption.
Qed.

Lemma fire_year_one_row k incendioID aoi epsg anio s :
  let nombre := String.append incendioID (String.append "_" (str anio)) in
  let r := try_export_image ee (2 + k) nombre aoi (fromYMD anio 5 15)
             (fromYMD anio 6 15) epsg s in
  let s' := snd (fire_year ee (2 + k) incendioID aoi epsg anio s) in
  ((exists b, fst r = Return b)
   /\ exists pct st,
        rows s' = rows s ++ [[Text nombre; pct; Text st]]
        /\ data_row [Text nombre; pct; Text st])
  \/ ((exists e, fst r = Raise e) /\ rows s' = rows s).
Proof.
  intros nombre r s'.
  pose proof (try_export_image_outcome ee nombre aoi (fromYMD anio 5 15) epsg
                (2 + k) (fromYMD anio 6 15) s) as Ho.
  pose proof (try_export_image_enough_fuel ee nombre aoi (fromYMD anio 5 15)
                epsg k (fromYMD anio 6 15) s) as Hf.
  fold r in Ho, Hf. subst s'.
  unfold fire_year, try_except, bind, ret, print. fold nombre. fold r.
  destruct r as [o s1]. cbn [fst snd] in *.
  inversion Ho; subst; cbn [snd]; try congruence.
  - left. split; [eauto|]. do 2 eexists. split; [eassumption|].
    do 3 eexists. split; [reflexivity|]. split; [simpl; tauto|auto].
  - left. split; [eauto|]. do 2 eexists. split; [eassumption|].
    do 3 eexists. split; [reflexivity|]. split; [simpl; tauto|auto].
  - left. split; [eauto|]. do 2 eexists. split; [eassumption|].
    do 3 eexists. split; [reflexivity|]. split; [simpl; tauto|eauto].
  - left. split; [eauto|]. do 2 eexists. split; [eassumption|].
    do 3 eexists. split; [reflexivity|]. split; [simpl; tauto|eauto].
  - right. split; eauto.
Qed.

End Run.

(* ------------------------------------------------------------------ *)
(** ** Properties of a run *)

Lemma format_02d_two_digits n : 0 <= n < 100 -> format_02d n = two_digits n.
Proof.
  intro H.
  assert (forallb (fun i => String.eqb (format_02d (Z.of_nat i))
                              (two_digits (Z.of_nat i)))
            (seq 0 100) = true) as Hall by (vm_compute; reflexivity).
  rewrite forallb_forall in Hall.
  specialize (Hall (Z.to_nat n)).
  rewrite Z2Nat.id in Hall by lia.
  apply String.eqb_eq, Hall, in_seq. lia.
Qed.

Section Claims.

Variable ee : Service.

(** C3 (amended).  An error raised by the cloud-percentage request of a
    fire-year is caught in [try_export_image]: it is printed, the row
    [nombre, "", "Cloud error"] is written and False is returned.  Any other
    exception raised inside [try_export_image] is caught by the loop of
    [process_feature], which prints it and writes no row.  In both cases the
    loop goes on: when the requests made before the loop (the feature list,
    and each fire's id, UTM zone and start year) answer, the main block
    finishes and has sent the size request of the May 15 - June 15 window
    of every fire and every year of its loop. *)
Theorem errors_caught_and_run_continues (k : nat) (s : State) :
  fault ee FeaturesGetInfo = None ->
  (forall f, In f (incendios ee) ->
     fault ee (IdGetInfo f) = None
     /\ fault ee (HusoGetInfo (Buffer (Bounds (geometry f)) 3000)) = None
     /\ fault ee (YearGetInfo (initialdat f)) = None) ->
  (forall fuel nombre aoi start end_ epsg s0 img e,
      fault ee (SizeGetInfo aoi start end_) = None ->
      get_best_image_by_cloud_cover ee (get_s2_sr_cld_col ee aoi start end_) aoi
        = Some img ->
      fault ee (CloudPercentageGetInfo (Some img) aoi) = Some e ->
      try_export_image ee (S fuel) nombre aoi start end_ epsg s0
      = (Return false,
         s_row [Text nombre; Text ""; Text "Cloud error"]
           (s_print (CloudPercentageError nombre e)
              (s_call (CloudPercentageGetInfo (Some img) aoi)
                 (s_call (SizeGetInfo aoi start end_) s0)))))
  /\ (forall fuel incendioID aoi epsg anio s0 e,
        let nombre := String.append incendioID (String.append "_" (str anio)) in
        let r := try_export_image ee fuel nombre aoi (fromYMD anio 5 15)
                   (fromYMD anio 6 15) epsg s0 in
        fst r = Raise e ->
        fire_year ee fuel incendioID aoi epsg anio s0
        = (Return tt, s_print (ErrorIn nombre e) (snd r))
        /\ rows (snd (fire_year ee fuel incendioID aoi epsg anio s0)) = rows s0)
  /\ fst (main ee (2 + k) s) = Return tt
  /\ (forall f anio,
        In f (incendios ee) -> In anio (fire_years f) ->
        In (SizeGetInfo (Buffer (Bounds (geometry f)) 3000)
              (fromYMD anio 5 15) (fromYMD anio 6 15))
           (calls (snd (main ee (2 + k) s)))).
Proof.
  intros Hfeat Hpre.
  split; [intros; now apply try_export_image_cloud_error|].
  split; [intros; now apply fire_year_catches|].
  now apply main_visits.
Qed.

(** C4 (amended).  The output file begins with the header row
    [Name, % Clouds, Status]; every other row is [name, percentage, status]
    with the status one of Exported, Discarded, No images, Cloud error and
    the percentage a number or empty; there are at most as many data rows
    as fire-years.  A fire-year whose [try_export_image] returns adds
    exactly one row, named after the fire and the year; a fire-year whose
    [try_export_image] raises adds none. *)
Theorem output_file_rows (k : nat) (s : State) :
  (exists data,
      rows (snd (main ee (2 + k) s)) = header :: data
      /\ Forall data_row data
      /\ (List.length data
          <= List.length (flat_map fire_years (incendios ee)))%nat)
  /\ (forall incendioID aoi epsg anio s0,
        let nombre := String.append incendioID (String.append "_" (str anio)) in
        let r := try_export_image ee (2 + k) nombre aoi (fromYMD anio 5 15)
                   (fromYMD anio 6 15) epsg s0 in
        let s' := snd (fire_year ee (2 + k) incendioID aoi epsg anio s0) in
        ((exists b, fst r = Return b)
         /\ exists pct st,
              rows s' = rows s0 ++ [[Text nombre; pct; Text st]]
              /\ data_row [Text nombre; pct; Text st])
        \/ ((exists e, fst r = Raise e) /\ rows s' = rows s0)).
Proof.
  split; [apply main_rows|]. intros. apply fire_year_one_row.
Qed.

(** C5.  When the requests answer and the best image's AOI percentage is at
    most [UMBRAL_NUBES], [try_export_image] starts the export of the
    composite (the median of the cloud/shadow-masked collection of the
    window, clipped to the AOI) with the CRS it was given and the AOI as
    region, prints, writes the row [nombre, percentage, "Exported"] and
    returns True.  The CRS [process_feature] gives to every task it starts
    is ["EPSG:258"] followed by the zone [floor((lon + 180) / 6) + 1] of
    the AOI centroid longitude, written with two digits. *)
Theorem try_export_image_exports
    (fuel : nat) (nombre : string) (aoi : Geometry) (start end_ : Date)
    (epsg : string) (s : State) (img : Image) :
  fault ee (SizeGetInfo aoi start end_) = None ->
  get_best_image_by_cloud_cover ee (get_s2_sr_cld_col ee aoi start end_) aoi
    = Some img ->
  fault ee (CloudPercentageGetInfo (Some img) aoi) = None ->
  (get_cloud_percentage ee img aoi <= UMBRAL_NUBES)%Q ->
  fault ee (TaskStart (export_task ee nombre aoi start end_ epsg)) = None ->
  let task := export_task ee nombre aoi start end_ epsg in
  (try_export_image ee (S fuel) nombre aoi start end_ epsg s
   = (Return true,
      s_row [Text nombre; Number (get_cloud_percentage ee img aoi);
             Text "Exported"]
        (s_print (Exporting nombre)
           (s_task task
              (s_call (TaskStart task)
                 (s_scored ee nombre aoi start end_ img s)))))
   /\ image task
      = clip ee
          (median ee
             (map apply_cld_shdw_mask
                (map (add_cld_shdw_mask ee)
                   (get_s2_sr_cld_col ee aoi start end_))))
          aoi
   /\ crs task = epsg
   /\ region task = aoi)
  /\ (forall k feature s0,
        let fire_aoi := Buffer (Bounds (geometry feature)) 3000 in
        let zone := Qfloor ((centroid_lon ee fire_aoi + 180) / 6) + 1 in
        exists started,
          tasks (snd (process_feature ee k feature s0)) = tasks s0 ++ started
          /\ Forall (fun t => crs t = String.append "EPSG:258" (format_02d zone)
                              /\ region t = fire_aoi) started)
  /\ (forall zone, 0 <= zone < 100 -> format_02d zone = two_digits zone).
Proof.
  intros Hsize Hbest Hpct Hle Hstart task.
  split; [now apply try_export_image_exports_run|].
  split; [|apply format_02d_two_digits].
  intros k feature s0 fire_aoi zone.
  destruct (process_feature_extends ee k feature s0 s0 (extends_refl _ _ _ s0))
    as (_ & _ & (nt & Et & Hnt) & _).
  exists nt. split; [exact Et|].
  eapply Forall_impl; [|exact Hnt]. intros t [Hr Hc]. split; assumption.
Qed.

(** C6.  The loop of [process_feature] runs over the years after the
    fire's start year and below 2024: 2023 is the last year tried and no
    fire is tried for 2024.  For a fire of 2023 the loop is empty: with a
    clear scene in the window of 2024 in the archive, the run sends no size
    request, starts no task and writes the header only. *)
Theorem process_feature_years :
  (forall feature anio,
      In anio (fire_years feature)
      <-> year (initialdat feature) + 1 <= anio <= 2023)
  /\ (forall feature, ~ In 2024 (fire_years feature))
  /\ fire_years (Toy.fire "F9" 2023) = []
  /\ get_s2_sr_cld_col Toy.srv_2024 Toy.aoi (Toy.may15 2024) (Toy.jun15 2024)
     <> []
  /\ rows (snd (main Toy.srv_2024 2 Toy.s0)) = [header]
  /\ tasks (snd (main Toy.srv_2024 2 Toy.s0)) = []
  /\ calls (snd (main Toy.srv_2024 2 Toy.s0))
     = [FeaturesGetInfo; IdGetInfo (Toy.fire "F9" 2023); HusoGetInfo Toy.aoi;
        YearGetInfo (fromYMD 2023 8 1)].
Proof.
  split; [|split; [|repeat split]].
  - intros feature anio. unfold fire_years. rewrite In_range. lia.
  - intro feature. unfold fire_years. rewrite In_range. lia.
  - vm_compute. discriminate.
Qed.

(** C8.  For a fire, every request [process_feature] sends that takes a
    region (the collections' spatial filter in the size request, the cloud
    percentage, the export) takes the bounding box of the fire's geometry
    buffered by 3000, every task it starts has that region, the images of
    the filtered collection meet that region, and the fire list held by
    the main block is not changed by processing fires. *)
Theorem process_feature_aoi (fuel : nat) (feature : Feature) (s : State) :
  let aoi := Buffer (Bounds (geometry feature)) 3000 in
  let s' := snd (process_feature ee fuel feature s) in
  (exists sent,
      calls s' = calls s ++ sent /\ Forall (call_uses aoi) sent)
  /\ (exists started,
        tasks s' = tasks s ++ started
        /\ Forall (fun t => region t = aoi) started)
  /\ (forall start end_ i,
        In i (get_s2_sr_cld_col ee aoi start end_) ->
        intersects ee (footprint i) aoi = true)
  /\ (forall img,
        (get_cloud_percentage ee img aoi
         == count (fun p => valid_B8 img p && cloudy img p) (region_pixels ee aoi)
            / count (valid_B8 img) (region_pixels ee aoi) * 100)%Q)
  /\ incendios_features s' = incendios_features s
  /\ (forall fs s0,
        incendios_features (snd (for_each fs (process_feature ee fuel) s0))
        = incendios_features s0).
Proof.
  intros aoi s'.
  destruct (process_feature_extends ee fuel feature s s (extends_refl _ _ _ s))
    as (Hf & _ & (nt & Et & Hnt) & (nc & Ec & Hnc)).
  split; [exists nc; auto|].
  split; [exists nt; split; [exact Et|]|].
  { eapply Forall_impl; [|exact Hnt]. intros t [Hr _]. exact Hr. }
  split; [intros; eapply get_s2_sr_cld_col_intersects; eauto|].
  split; [intro; apply get_cloud_percentage_counts|].
  split; [exact Hf|].
  intros fs s0.
  destruct (for_each_process_feature_extends ee fuel fs s0 s0
              (extends_refl _ _ _ s0)) as (H & _).
  exact H.
Qed.

End Claims.

(* ------------------------------------------------------------------ *)
(** ** The theorems at work on the small service *)

(** C1 on the collection of June 2022: two images pass the metadata
    filter and the join. *)
Lemma get_best_image_by_cloud_cover_lowest_witness :
  Toy.col <> []
  /\ exists img,
       In img Toy.col
       /\ get_best_image_by_cloud_cover Toy.srv Toy.col Toy.aoi
          = Some (set_CLOUDY_PERCENT_AOI img
                    (get_cloud_percentage Toy.srv img Toy.aoi))
       /\ forall other, In other Toy.col ->
            (get_cloud_percentage Toy.srv img Toy.aoi
             <= get_cloud_percentage Toy.srv other Toy.aoi)%Q.
Proof.
  assert (Toy.col <> []) as H by (vm_compute; discriminate).
  split; [exact H|].
  exact (proj1 (get_best_image_by_cloud_cover_lowest Toy.srv Toy.col Toy.aoi H)).
Defined.

(** C2 on a June window whose only scene has one cloudy pixel in four
    (25 %): the call is the call for the window ending on July 15. *)
Lemma try_export_image_retry_or_discard_witness :
  let img := set_cloudiness Toy.srv_cloudy Toy.aoi Toy.scene_A in
  get_best_image_by_cloud_cover Toy.srv_cloudy
    (get_s2_sr_cld_col Toy.srv_cloudy Toy.aoi (Toy.may15 2022) (Toy.jun15 2022))
    Toy.aoi = Some img
  /\ (UMBRAL_NUBES < get_cloud_percentage Toy.srv_cloudy img Toy.aoi)%Q
  /\ month (Toy.jun15 2022) = 6
  /\ try_export_image Toy.srv_cloudy 2 "F1_2022" Toy.aoi (Toy.may15 2022)
       (Toy.jun15 2022) "EPSG:25831" Toy.s0
     = try_export_image Toy.srv_cloudy 1 "F1_2022" Toy.aoi (Toy.may15 2022)
         (fromYMD 2022 7 15) "EPSG:25831"
         (s_call (YearGetInfo (Toy.jun15 2022))
            (s_print (Retrying "F1_2022")
               (s_call (MonthGetInfo (Toy.jun15 2022))
                  (s_scored Toy.srv_cloudy "F1_2022" Toy.aoi (Toy.may15 2022)
                     (Toy.jun15 2022) img Toy.s0)))).
Proof.
  intro img.
  assert (get_best_image_by_cloud_cover Toy.srv_cloudy
            (get_s2_sr_cld_col Toy.srv_cloudy Toy.aoi (Toy.may15 2022)
               (Toy.jun15 2022)) Toy.aoi = Some img) as Hbest
    by reflexivity.
  assert (UMBRAL_NUBES < get_cloud_percentage Toy.srv_cloudy img Toy.aoi)%Q
    as Hgt by (vm_compute; reflexivity).
  split; [exact Hbest|]. split; [exact Hgt|]. split; [reflexivity|].
  exact (proj1 (proj2 (try_export_image_retry_or_discard Toy.srv_cloudy 1
                         "F1_2022" Toy.aoi (Toy.may15 2022) (Toy.jun15 2022)
                         "EPSG:25831" Toy.s0 img
                         eq_refl Hbest eq_refl Hgt eq_refl))
           eq_refl eq_refl).
Defined.

(** C3 (amended) on a service that refuses every cloud-percentage
    request: the run finishes and both years of the fire are tried. *)
Lemma errors_caught_and_run_continues_witness :
  fault Toy.srv_cloud_fault FeaturesGetInfo = None
  /\ fst (main Toy.srv_cloud_fault 2 Toy.s0) = Return tt
  /\ (forall f anio,
        In f (incendios Toy.srv_cloud_fault) -> In anio (fire_years f) ->
        In (SizeGetInfo (Buffer (Bounds (geometry f)) 3000)
              (fromYMD anio 5 15) (fromYMD anio 6 15))
           (calls (snd (main Toy.srv_cloud_fault 2 Toy.s0)))).
Proof.
  split; [reflexivity|].
  refine (proj2 (proj2 (errors_caught_and_run_continues Toy.srv_cloud_fault 0
                          Toy.s0 eq_refl _))).
  intros f Hf. repeat split.
Defined.

(** C5 on the window of June 2022, whose best scene is clear. *)
Lemma try_export_image_exports_witness :
  let img := set_cloudiness Toy.srv Toy.aoi Toy.scene_B in
  let task := export_task Toy.srv "F1_2022" Toy.aoi (Toy.may15 2022)
                (Toy.jun15 2022) "EPSG:25831" in
  get_best_image_by_cloud_cover Toy.srv Toy.col Toy.aoi = Some img
  /\ (get_cloud_percentage Toy.srv img Toy.aoi <= UMBRAL_NUBES)%Q
  /\ try_export_image Toy.srv 1 "F1_2022" Toy.aoi (Toy.may15 2022)
       (Toy.jun15 2022) "EPSG:25831" Toy.s0
     = (Return true,
        s_row [Text "F1_2022"; Number (get_cloud_percentage Toy.srv img Toy.aoi);
               Text "Exported"]
          (s_print (Exporting "F1_2022")
             (s_task task
                (s_call (TaskStart task)
                   (s_scored Toy.srv "F1_2022" Toy.aoi (Toy.may15 2022)
                      (Toy.jun15 2022) img Toy.s0))))).
Proof.
  intros img task.
  assert (get_best_image_by_cloud_cover Toy.srv Toy.col Toy.aoi = Some img)
    as Hbest by reflexivity.
  assert (get_cloud_percentage Toy.srv img Toy.aoi <= UMBRAL_NUBES)%Q as Hle
    by (vm_compute; discriminate).
  split; [exact Hbest|]. split; [exact Hle|].
  exact (proj1 (proj1 (try_export_image_exports Toy.srv 0 "F1_2022" Toy.aoi
                         (Toy.may15 2022) (Toy.jun15 2022) "EPSG:25831" Toy.s0
                         img eq_refl Hbest eq_refl Hle eq_refl))).
Defined.

(** Against C3 as stated: the size request of the 2022 window is refused;
    the error is printed by [process_feature], the run goes on to 2023, and
    the file has no row for the fire-year that failed. *)
Lemma failure_without_row :
  let s' := snd (main Toy.srv_size_fault 2 Toy.s0) in
  fst (try_export_image Toy.srv_size_fault 2 "F1_2022" Toy.aoi (Toy.may15 2022)
         (Toy.jun15 2022) "EPSG:25831"
         (s_call (YearGetInfo (fromYMD 2021 8 1))
            (s_print (EpsgFor "F1" "EPSG:25831")
               (s_call (HusoGetInfo Toy.aoi)
                  (s_call (IdGetInfo (Toy.fire "F1" 2021))
                     (s_call FeaturesGetInfo
                        (mkState (incendios Toy.srv_size_fault) [header] [] []
                           [])))))))
  = Raise "Computation timed out."
  /\ stdout s'
     = [EpsgFor "F1" "EPSG:25831";
        ErrorIn "F1_2022" "Computation timed out."; NoImagesFor "F1_2023"]
  /\ rows s' = [header; [Text "F1_2023"; Text ""; Text "No images"]]
  /\ ~ (exists pct st, In [Text "F1_2022"; pct; Text st] (rows s')).
Proof.
  repeat split.
  intros (pct & st & [H|[H|[]]]); discriminate H.
Qed.

(** Against C4 as stated: starting the task is refused; the fire has two
    fire-years, both are tried, and the file has one data row. *)
Lemma two_attempts_one_row :
  let s' := snd (main Toy.srv_start_fault 2 Toy.s0) in
  flat_map fire_years (incendios Toy.srv_start_fault) = [2022; 2023]
  /\ In (SizeGetInfo Toy.aoi (Toy.may15 2022) (Toy.jun15 2022)) (calls s')
  /\ In (SizeGetInfo Toy.aoi (Toy.may15 2023) (Toy.jun15 2023)) (calls s')
  /\ stdout s'
     = [EpsgFor "F1" "EPSG:25831"; CloudsIn "F1_2022" (0 # 4);
        ErrorIn "F1_2022" "Too many tasks."; NoImagesFor "F1_2023"]
  /\ rows s' = [header; [Text "F1_2023"; Text ""; Text "No images"]].
Proof.
  repeat split.
  - vm_compute. do 4 right. now left.
  - vm_compute. do 7 right. now left.
Qed.

(* ------------------------------------------------------------------ *)
(** ** Further properties: the joined collection *)

Section Collection.

Variable ee : Service.


Lemma date_ltb_leb_trans a b c :
  date_ltb a b = true -> date_leb b c = true -> date_ltb a c = true.
Proof.
  unfold date_leb, date_ltb. destruct a, b, c; simpl.
  rewrite negb_true_iff, !orb_true_iff, !andb_true_iff, !orb_true_iff,
    !andb_true_iff, !orb_false_iff, !andb_false_iff, !orb_false_iff,
    !andb_false_iff, !Z.ltb_lt, !Z.eqb_eq, !Z.ltb_ge, !Z.eqb_neq.
  lia.
Qed.



Lemma saveFirst_apply_iff i primary secondary :
  In i (saveFirst_apply primary secondary)
  <-> exists p c,
        In p primary
        /\ find (fun c => String.eqb (system_index p) (cp_index c)) secondary
           = Some c
        /\ i = set_s2cloudless p c.
Proof.
  induction primary as [|p rest IH]; simpl.
  - split; [easy|]. intros (p & c & [] & _).
  - destruct (find _ secondary) as [c|] eqn:E.
    + simpl. rewrite IH. split.
      * intros [<-|(p' & c' & Hp & Hf & ->)].
        -- exists p, c. auto.
        -- exists p', c'. auto.
      * intros (p' & c' & [<-|Hp] & Hf & ->).
        -- left. congruence.
        -- right. exists p', c'. auto.
    + rewrite IH. split.
      * intros (p' & c' & Hp & Hf & ->). exists p', c'. auto.
      * intros (p' & c' & [<-|Hp] & Hf & ->); [congruence|].
        exists p', c'. auto.
Qed.

Lemma s2_sr_col_In aoi start end_ p :
  In p (filter_lte_CLOUDY_PIXEL_PERCENTAGE CLOUD_FILTER
          (filterDate start end_ (filterBounds ee aoi (S2_SR_HARMONIZED ee))))
  <-> In p (S2_SR_HARMONIZED ee)
      /\ intersects ee (footprint p) aoi = true
      /\ in_window start end_ (system_time_start p) = true
      /\ Qle_bool (CLOUDY_PIXEL_PERCENTAGE p) CLOUD_FILTER = true.
Proof.
  unfold filter_lte_CLOUDY_PIXEL_PERCENTAGE, filterDate, filterBounds, in_window.
  rewrite !filter_In. tauto.
Qed.

Lemma s2_cloudless_col_In aoi start end_ c :
  In c (cp_filterDate start end_
          (cp_filterBounds ee aoi (S2_CLOUD_PROBABILITY ee)))
  <-> In c (S2_CLOUD_PROBABILITY ee)
      /\ intersects ee (cp_footprint c) aoi = true
      /\ in_window start end_ (cp_time c) = true.
Proof.
  unfold cp_filterDate, cp_filterBounds, in_window.
  rewrite !filter_In. tauto.
Qed.

(** X1.  The joined collection is an inner join on the index.  Each of its
    images is an archive image inside the window, meeting the AOI and
    within the metadata limit, with a cloud-probability image of the same
    index, itself inside the window and meeting the AOI, attached as
    ['s2cloudless'].  Conversely an archive image that passes the filters
    and has such a partner is in the collection; one without a partner is
    dropped. *)
Theorem get_s2_sr_cld_col_inner_join (aoi : Geometry) (start end_ : Date) :
  (forall i,
      In i (get_s2_sr_cld_col ee aoi start end_) ->
      exists p c,
        i = set_s2cloudless p c
        /\ In p (S2_SR_HARMONIZED ee)
        /\ intersects ee (footprint p) aoi = true
        /\ in_window start end_ (system_time_start p) = true
        /\ (CLOUDY_PIXEL_PERCENTAGE p <= CLOUD_FILTER)%Q
        /\ In c (S2_CLOUD_PROBABILITY ee)
        /\ cp_index c = system_index p
        /\ intersects ee (cp_footprint c) aoi = true
        /\ in_window start end_ (cp_time c) = true)
  /\ (forall p c,
        In p (S2_SR_HARMONIZED ee) ->
        intersects ee (footprint p) aoi = true ->
        in_window start end_ (system_time_start p) = true ->
        (CLOUDY_PIXEL_PERCENTAGE p <= CLOUD_FILTER)%Q ->
        In c (S2_CLOUD_PROBABILITY ee) ->
        cp_index c = system_index p ->
        intersects ee (cp_footprint c) aoi = true ->
        in_window start end_ (cp_time c) = true ->
        exists c',
          cp_index c' = system_index p
          /\ In (set_s2cloudless p c') (get_s2_sr_cld_col ee aoi start end_))
  /\ (forall idx,
        (forall c, In c (S2_CLOUD_PROBABILITY ee) -> cp_index c <> idx) ->
        forall i, In i (get_s2_sr_cld_col ee aoi start end_) ->
                  system_index i <> idx).
Proof.
  assert (forall i,
             In i (get_s2_sr_cld_col ee aoi start end_) ->
             exists p c,
               i = set_s2cloudless p c
               /\ In p (S2_SR_HARMONIZED ee)
               /\ intersects ee (footprint p) aoi = true
               /\ in_window start end_ (system_time_start p) = true
               /\ (CLOUDY_PIXEL_PERCENTAGE p <= CLOUD_FILTER)%Q
               /\ In c (S2_CLOUD_PROBABILITY ee)
               /\ cp_index c = system_index p
               /\ intersects ee (cp_footprint c) aoi = true
               /\ in_window start end_ (cp_time c) = true) as Hsound.
  { intros i Hi. unfold get_s2_sr_cld_col in Hi.
    apply saveFirst_apply_iff in Hi. destruct Hi as (p & c & Hp & Hf & ->).
    apply s2_sr_col_In in Hp. destruct Hp as (Hp1 & Hp2 & Hp3 & Hp4).
    apply find_some in Hf. destruct Hf as [Hc Hidx].
    apply s2_cloudless_col_In in Hc. destruct Hc as (Hc1 & Hc2 & Hc3).
    apply String.eqb_eq in Hidx. apply Qle_bool_iff in Hp4.
    exists p, c. repeat split; auto. }
  split; [exact Hsound|]. split.
  - intros p c Hp Hpi Hpw Hcpp Hc Hidx Hci Hcw.
    destruct (find (fun c => String.eqb (system_index p) (cp_index c))
                (cp_filterDate start end_
                   (cp_filterBounds ee aoi (S2_CLOUD_PROBABILITY ee))))
      as [c'|] eqn:E.
    + exists c'. split.
      * apply find_some in E. destruct E as [_ E].
        apply String.eqb_eq in E. auto.
      * unfold get_s2_sr_cld_col. apply saveFirst_apply_iff.
        exists p, c'. split; [|split; [exact E|reflexivity]].
        apply s2_sr_col_In. repeat split; auto. now apply Qle_bool_iff.
    + exfalso.
      pose proof (find_none _ _ E c) as Hn. cbv beta in Hn.
      rewrite Hidx, String.eqb_refl in Hn.
      assert (true = false) by (apply Hn; apply s2_cloudless_col_In; auto).
      discriminate.
  - intros idx Hno i Hi. destruct (Hsound i Hi) as (p & c & -> & H).
    destruct H as (_ & _ & _ & _ & Hc & Hidx & _). simpl.
    rewrite <- Hidx. now apply Hno.
Qed.



End Collection.


(* ------------------------------------------------------------------ *)
(** ** Further properties: the cloud percentage *)

Section Percentage.

Variable ee : Service.

Lemma filter_andb_length {A} (f g : A -> bool) (l : list A) :
  (List.length (filter (fun x => f x && g x) l)
   <= List.length (filter f l))%nat.
Proof.
  induction l as [|x l IH]; simpl; [lia|].
  destruct (f x), (g x); simpl; lia.
Qed.

Lemma filter_length_0 {A} (f : A -> bool) (l : list A) :
  List.length (filter f l) = 0%nat <-> forall x, In x l -> f x = false.
Proof.
  induction l as [|x l IH]; simpl.
  - split; [intros _ ? []|reflexivity].
  - destruct (f x) eqn:E; simpl.
    + split; [discriminate|]. intro H.
      specialize (H x (or_introl eq_refl)). congruence.
    + rewrite IH. split.
      * intros H y [<-|Hy]; auto.
      * intros H y Hy. apply H. now right.
Qed.

Lemma filter_andb_length_eq {A} (f g : A -> bool) (l : list A) :
  List.length (filter (fun x => f x && g x) l) = List.length (filter f l)
  <-> forall x, In x l -> f x = true -> g x = true.
Proof.
  induction l as [|x l IH]; simpl.
  - split; [intros _ ? []|reflexivity].
  - pose proof (filter_andb_length f g l) as Hle.
    destruct (f x) eqn:Ef, (g x) eqn:Eg; simpl.
    + split.
      * intros H y [<-|Hy] Hfy; [exact Eg|].
        apply IH; auto.
      * intro H. f_equal. apply IH. intros y Hy. apply H. now right.
    + split; [lia|]. intro H.
      specialize (H x (or_introl eq_refl) Ef). congruence.
    + rewrite IH. split.
      * intros H y [<-|Hy] Hfy; [congruence|]. auto.
      * intros H y Hy. apply H. now right.
    + rewrite IH. split.
      * intros H y [<-|Hy] Hfy; [congruence|]. auto.
      * intros H y Hy. apply H. now right.
Qed.

Lemma count_pos f ps :
  (exists p, In p ps /\ f p = true) -> (0 < count f ps)%Q.
Proof.
  intros (p & Hp & Hf). unfold count.
  destruct (filter f ps) as [|x l] eqn:E.
  - exfalso. assert (In p (filter f ps)) as H by (apply filter_In; auto).
    rewrite E in H. exact H.
  - simpl List.length. rewrite <- (Zlt_Qlt 0). lia.
Qed.

Lemma count_nat_le f g ps :
  (List.length (filter f ps) <= List.length (filter g ps))%nat ->
  (count f ps <= count g ps)%Q.
Proof. intro H. unfold count. rewrite <- Zle_Qle. lia. Qed.

Lemma count_nat_eq f g ps :
  (count f ps == count g ps)%Q
  <-> List.length (filter f ps) = List.length (filter g ps).
Proof.
  unfold count. rewrite inject_Z_injective. split; [apply Nat2Z.inj|congruence].
Qed.

Lemma count_zero f ps :
  (count f ps == 0)%Q <-> List.length (filter f ps) = 0%nat.
Proof.
  unfold count. change 0%Q with (inject_Z 0). rewrite inject_Z_injective.
  lia.
Qed.

Lemma ratio_bounds (a b : Q) :
  (0 <= a)%Q -> (a <= b)%Q -> (0 < b)%Q ->
  (0 <= a / b * 100 <= 100)%Q.
Proof.
  intros Ha Hab Hb. split.
  - apply Qmult_le_0_compat; [|discriminate].
    apply Qle_shift_div_l; [exact Hb|]. now rewrite Qmult_0_l.
  - assert (a / b <= 1)%Q as H1.
    { apply Qle_shift_div_r; [exact Hb|]. now rewrite Qmult_1_l. }
    setoid_replace 100%Q with (1 * 100)%Q at 2 by reflexivity.
    apply Qmult_le_compat_r; [exact H1|discriminate].
Qed.

Lemma ratio_zero (a b : Q) :
  (0 < b)%Q -> (a / b * 100 == 0)%Q <-> (a == 0)%Q.
Proof.
  intro Hb. assert (~ b == 0)%Q as Hnz.
  { intro E. rewrite E in Hb. discriminate Hb. }
  split.
  - intro H. apply Qmult_integral in H. destruct H as [H|H]; [|discriminate H].
    rewrite <- (Qmult_div_r a b Hnz) at 1. unfold Qdiv in *.
    rewrite Qmult_assoc, (Qmult_comm b a), <- Qmult_assoc, (Qmult_comm b).
    rewrite Qmult_assoc, H. ring.
  - intros ->. unfold Qdiv. ring.
Qed.

Lemma ratio_full (a b : Q) :
  (0 < b)%Q -> (a / b * 100 == 100)%Q <-> (a == b)%Q.
Proof.
  intro Hb. assert (~ b == 0)%Q as Hnz.
  { intro E. rewrite E in Hb. discriminate Hb. }
  split.
  - intro H.
    assert (a / b == 1)%Q as H1.
    { apply (Qmult_inj_r _ _ 100); [discriminate|]. rewrite H. reflexivity. }
    rewrite <- (Qmult_div_r a b Hnz), H1. ring.
  - intros ->. field. exact Hnz.
Qed.

(** X3.  When the AOI has a pixel valid in B8, the cloud percentage lies
    between 0 and 100; it is 0 exactly when no valid AOI pixel has a cloud
    probability above [CLD_PRB_THRESH], and 100 exactly when every valid
    AOI pixel has one. *)
Theorem get_cloud_percentage_bounds (img : Image) (aoi : Geometry) :
  (exists p, In p (region_pixels ee aoi) /\ valid_B8 img p = true) ->
  (0 <= get_cloud_percentage ee img aoi <= 100)%Q
  /\ ((get_cloud_percentage ee img aoi == 0)%Q
      <-> forall p, In p (region_pixels ee aoi) ->
                    valid_B8 img p = true -> cloudy img p = false)
  /\ ((get_cloud_percentage ee img aoi == 100)%Q
      <-> forall p, In p (region_pixels ee aoi) ->
                    valid_B8 img p = true -> cloudy img p = true).
Proof.
  intro Hvalid. pose proof (count_pos _ _ Hvalid) as Hpos.
  pose proof (get_cloud_percentage_counts ee img aoi) as E.
  rewrite E. split; [|split].
  - apply ratio_bounds; [|apply count_nat_le, filter_andb_length|exact Hpos].
    unfold count. rewrite <- (Zle_Qle 0). lia.
  - rewrite (ratio_zero _ _ Hpos), count_zero, filter_length_0. split.
    + intros H p Hp Hv. specialize (H p Hp). rewrite Hv in H. exact H.
    + intros H p Hp. destruct (valid_B8 img p) eqn:Hv; [|reflexivity].
      simpl. auto.
  - rewrite (ratio_full _ _ Hpos), count_nat_eq.
    apply (filter_andb_length_eq (valid_B8 img) (cloudy img)).
Qed.

End Percentage.

Lemma get_cloud_percentage_bounds_witness :
  (exists p, In p (region_pixels Toy.srv Toy.aoi)
             /\ valid_B8 Toy.scene_A p = true)
  /\ (0 <= get_cloud_percentage Toy.srv Toy.scene_A Toy.aoi <= 100)%Q.
Proof.
  assert (exists p, In p (region_pixels Toy.srv Toy.aoi)
                    /\ valid_B8 Toy.scene_A p = true) as H.
  { exists (0, 0). split; [now left|reflexivity]. }
  split; [exact H|].
  exact (proj1 (get_cloud_percentage_bounds Toy.srv Toy.scene_A Toy.aoi H)).
Defined.

(* ------------------------------------------------------------------ *)
(** ** Further properties: cloud and shadow masking *)

Section Masking.

Variable ee : Service.

Lemma lookup_app n bs new :
  Img.lookup n (bs ++ new)
  = match Img.lookup n bs with
    | Some r => Some r
    | None => Img.lookup n new
    end.
Proof.
  induction bs as [|[m r] bs IH]; simpl; [reflexivity|].
  destruct (String.eqb m n); [reflexivity|exact IH].
Qed.

Lemma select_app_old n bs new :
  Img.lookup n new = None -> Img.select (bs ++ new) n = Img.select bs n.
Proof.
  intro H. unfold Img.select. rewrite lookup_app, H.
  destruct (Img.lookup n bs); reflexivity.
Qed.

Lemma select_app_new n bs new :
  Img.lookup n bs = None -> Img.select (bs ++ new) n = Img.select new n.
Proof.
  intro H. unfold Img.select. now rewrite lookup_app, H.
Qed.

Lemma select_cons_eq n r bs : Img.select ((n, r) :: bs) n = r.
Proof. unfold Img.select. simpl. now rewrite String.eqb_refl. Qed.

Lemma select_cons_neq m n r bs :
  String.eqb m n = false -> Img.select ((m, r) :: bs) n = Img.select bs n.
Proof. intro H. unfold Img.select. simpl. now rewrite H. Qed.

Lemma select_B_app bs new :
  Img.select_B (bs ++ new) = Img.select_B bs ++ Img.select_B new.
Proof. apply filter_app. Qed.

Lemma lookup_masked_B n m bs :
  Img.lookup n
    (map (fun nr => (fst nr, Img.updateMask (snd nr) m)) (Img.select_B bs))
  = if String.prefix "B" n
    then option_map (fun r => Img.updateMask r m) (Img.lookup n bs)
    else None.
Proof.
  induction bs as [|[k r] bs IH]; simpl.
  - destruct (String.prefix "B" n); reflexivity.
  - destruct (String.prefix "B" k) eqn:Ek; simpl.
    + destruct (String.eqb k n) eqn:E.
      * apply String.eqb_eq in E. subst k. rewrite Ek. reflexivity.
      * exact IH.
    + destruct (String.eqb k n) eqn:E.
      * apply String.eqb_eq in E. subst k. rewrite Ek in *.
        rewrite IH. reflexivity.
      * exact IH.
Qed.

(** The bands [add_cld_shdw_mask] appends, none of which is optical. *)
Lemma add_cld_shdw_mask_bands img :
  exists added,
    bands (add_cld_shdw_mask ee img) = bands img ++ added
    /\ map fst added
       = ["cloud_prob"; "clouds"; "dark_pixels"; "cloud_transform"; "shadows";
          "cloudmask"].
Proof.
  unfold add_cld_shdw_mask, add_shadow_bands, add_cloud_bands, with_bands,
    Img.addBands. cbn [bands].
  rewrite <- !app_assoc. eexists. split; [reflexivity|]. reflexivity.
Qed.

Lemma select_B_no_optical (added : Bands) :
  map fst added
  = ["cloud_prob"; "clouds"; "dark_pixels"; "cloud_transform"; "shadows";
     "cloudmask"] ->
  Img.select_B added = [].
Proof.
  intro H.
  destruct added as [|[n1 r1] [|[n2 r2] [|[n3 r3] [|[n4 r4] [|[n5 r5]
    [|[n6 r6] [|]]]]]]]; try discriminate H.
  simpl in H. injection H as -> -> -> -> -> ->. reflexivity.
Qed.

Lemma masked_bands img :
  bands (apply_cld_shdw_mask (add_cld_shdw_mask ee img))
  = map (fun nr => (fst nr,
                    Img.updateMask (snd nr) (Img.Not (cloudmask_of ee img))))
      (Img.select_B (bands img)).
Proof.
  unfold apply_cld_shdw_mask, with_bands. cbn [bands]. fold (cloudmask_of ee img).
  destruct (add_cld_shdw_mask_bands img) as (added & -> & Hn).
  rewrite select_B_app, (select_B_no_optical added Hn), app_nil_r.
  reflexivity.
Qed.

(** X4.  The images that enter the composite hold the optical bands of the
    source image and nothing else: their band names are the source's band
    names that start with [B], in the same order, so SCL, the probability
    and the mask bands the pipeline adds are never exported. *)
Theorem masked_image_band_names (img : Image) :
  let out := apply_cld_shdw_mask (add_cld_shdw_mask ee img) in
  map fst (bands out)
  = filter (fun n => String.prefix "B" n) (map fst (bands img))
  /\ (forall n, In n (map fst (bands out)) ->
                String.prefix "B" n = true /\ In n (map fst (bands img)))
  /\ (forall n, String.prefix "B" n = false ->
                Img.lookup n (bands out) = None)
  /\ Img.lookup "SCL" (bands out) = None
  /\ Img.lookup "cloudmask" (bands out) = None
  /\ Img.lookup "clouds" (bands out) = None
  /\ Img.lookup "shadows" (bands out) = None
  /\ Img.lookup "cloud_prob" (bands out) = None.
Proof.
  intro out. subst out. rewrite masked_bands.
  assert (forall bs : Bands,
             map fst
               (map (fun nr => (fst nr,
                                Img.updateMask (snd nr)
                                  (Img.Not (cloudmask_of ee img))))
                  (Img.select_B bs))
             = filter (fun n => String.prefix "B" n) (map fst bs)) as Hnames.
  { induction bs as [|[k r] bs IH]; simpl; [reflexivity|].
    destruct (String.prefix "B" k); simpl; now rewrite IH. }
  assert (forall n, String.prefix "B" n = false ->
            Img.lookup n
              (map (fun nr => (fst nr,
                               Img.updateMask (snd nr)
                                 (Img.Not (cloudmask_of ee img))))
                 (Img.select_B (bands img))) = None) as Hnone.
  { intros n Hn. rewrite lookup_masked_B, Hn. reflexivity. }
  split; [apply Hnames|]. split.
  - intros n Hn. rewrite Hnames in Hn. apply filter_In in Hn. tauto.
  - split; [exact Hnone|]. repeat split; apply Hnone; reflexivity.
Qed.

(** X5.  In an image that enters the composite, an optical band has a value
    at a pixel exactly when the source band has that value there and the
    cloud/shadow mask is valid and zero there: pixels flagged by the mask,
    and pixels where the mask itself is masked, are removed and no value
    is altered. *)
Theorem masked_image_pixels (img : Image) (n : string) (p : Pixel) (v : Q) :
  String.prefix "B" n = true ->
  let out := apply_cld_shdw_mask (add_cld_shdw_mask ee img) in
  Img.select (bands out) n p = Some v
  <-> Img.select (bands img) n p = Some v
      /\ exists c, cloudmask_of ee img p = Some c /\ (c == 0)%Q.
Proof.
  intros Hn out. subst out. unfold Img.select at 1.
  rewrite masked_bands, lookup_masked_B, Hn.
  unfold Img.select at 1.
  destruct (Img.lookup n (bands img)) as [r|]; simpl.
  - unfold Img.updateMask, Img.Not, Img.lift1.
    destruct (r p) as [x|]; [|split; [discriminate|intros [H _]; discriminate H]].
    destruct (cloudmask_of ee img p) as [c|]; simpl;
      [|split; [discriminate|intros [_ (c & H & _)]; discriminate H]].
    destruct (Qeq_bool c 0) eqn:E; simpl.
    + split.
      * intro H. split; [exact H|]. exists c. split; [reflexivity|].
        now apply Qeq_bool_iff.
      * intros [H _]. exact H.
    + split; [discriminate|]. intros [_ (c' & H & Hc)].
      injection H as <-. apply Qeq_bool_iff in Hc. congruence.
  - unfold Img.empty. split; [discriminate|intros [H _]; discriminate H].
Qed.

Lemma indicator_nonzero b : ~ (Img.indicator b == 0)%Q -> b = true.
Proof. destruct b; [reflexivity|]. intro H. exfalso. apply H. reflexivity. Qed.

(** X6.  In an image without bands named [clouds] or [shadows] beforehand,
    the [clouds] band is 1 exactly on the pixels the cloud percentage
    counts as cloudy, and the [shadows] band is non-zero only where B8 is
    valid and below 1500 and SCL is valid and not 6 (water). *)
Theorem cloud_and_shadow_bands (img : Image) (p : Pixel) :
  Img.lookup "clouds" (bands img) = None ->
  Img.lookup "shadows" (bands img) = None ->
  let img_shadow := add_shadow_bands ee (add_cloud_bands img) in
  (Img.select (bands img_shadow) "clouds" p = Some 1%Q
   <-> cloudy img p = true)
  /\ (forall v,
        Img.select (bands img_shadow) "shadows" p = Some v ->
        ~ (v == 0)%Q ->
        (exists b, Img.select (bands img) "B8" p = Some b /\ (b < 1500)%Q)
        /\ (exists c, Img.select (bands img) "SCL" p = Some c
                      /\ ~ (c == 6)%Q)).
Proof.
  intros Hc Hs img_shadow. subst img_shadow.
  unfold add_shadow_bands, add_cloud_bands, with_bands, Img.addBands.
  cbn [bands MEAN_SOLAR_AZIMUTH_ANGLE]. split.
  - rewrite select_app_old by reflexivity.
    rewrite select_app_new by exact Hc.
    rewrite select_cons_neq by reflexivity. rewrite select_cons_eq.
    unfold cloudy, Img.gt, Img.lift1.
    destruct (s2cloudless_probability img p) as [x|]; simpl;
      [|split; intro H; discriminate H].
    destruct (Img.Qltb CLD_PRB_THRESH x); simpl; split; intro H;
      try reflexivity; discriminate H.
  - intros v Hv Hnz.
    rewrite select_app_new in Hv.
    2:{ rewrite lookup_app, Hs. reflexivity. }
    rewrite !select_cons_neq in Hv by reflexivity.
    rewrite select_cons_eq in Hv.
    rewrite (select_app_old "B8"), (select_app_old "SCL") in Hv
      by reflexivity.
    unfold Img.multiply, Img.lift2, Img.lt, Img.neq, Img.lift1, Img.mask in Hv.
    destruct (Img.select (bands img) "B8" p) as [b|];
      destruct (Img.select (bands img) "SCL" p) as [c|];
      simpl in Hv;
      try (destruct (directionalDistanceTransform ee _ _ _ p); discriminate Hv).
    assert (exists x, v = (x * (Img.indicator (Img.Qltb b (NIR_DRK_THRESH * 10000))
                               * Img.indicator (negb (Qeq_bool c 6))))%Q)
      as (x & ->).
    { destruct (directionalDistanceTransform ee _ _ _ p);
        injection Hv as <-; eexists; reflexivity. }
    assert (Img.Qltb b (NIR_DRK_THRESH * 10000) = true
            /\ negb (Qeq_bool c 6) = true) as [Hb Hw].
    { split; apply indicator_nonzero; intro E; apply Hnz; rewrite E; ring. }
    split.
    + exists b. split; [reflexivity|]. apply Qltb_lt in Hb.
      eapply Qlt_le_trans; [exact Hb|]. discriminate.
    + exists c. split; [reflexivity|]. intro E.
      apply Qeq_bool_iff in E. rewrite E in Hw. discriminate.
Qed.

End Masking.

Lemma cloud_and_shadow_bands_witness :
  Img.lookup "clouds" (bands Toy.scene_A) = None
  /\ Img.lookup "shadows" (bands Toy.scene_A) = None
  /\ (Img.select
        (bands (add_shadow_bands Toy.srv (add_cloud_bands Toy.scene_A)))
        "clouds" (0, 0) = Some 1%Q
      <-> cloudy Toy.scene_A (0, 0) = true).
Proof.
  split; [reflexivity|]. split; [reflexivity|].
  exact (proj1 (cloud_and_shadow_bands Toy.srv Toy.scene_A (0, 0)
                  eq_refl eq_refl)).
Defined.

Lemma masked_image_pixels_witness :
  String.prefix "B" "B8" = true
  /\ (Img.select
        (bands (apply_cld_shdw_mask (add_cld_shdw_mask Toy.srv Toy.scene_A)))
        "B8" (1, 1) = Some 2500%Q
      <-> Img.select (bands Toy.scene_A) "B8" (1, 1) = Some 2500%Q
          /\ exists c, cloudmask_of Toy.srv Toy.scene_A (1, 1) = Some c
                       /\ (c == 0)%Q).
Proof.
  split; [reflexivity|].
  exact (masked_image_pixels Toy.srv Toy.scene_A "B8" (1, 1) 2500 eq_refl).
Defined.

(* ------------------------------------------------------------------ *)
(** ** Further properties: zones, names and years *)

Section Naming.

Variable ee : Service.

Lemma fire_huso_bounds aoi :
  (-180 <= centroid_lon ee aoi)%Q -> (centroid_lon ee aoi < 180)%Q ->
  1 <= fire_huso ee aoi <= 60.
Proof.
  intros Hlo Hhi. unfold fire_huso.
  set (x := ((centroid_lon ee aoi + 180) / 6)%Q).
  assert (0 <= x)%Q as H0.
  { unfold x. apply Qle_shift_div_l; [reflexivity|].
    rewrite Qmult_0_l. rewrite <- (Qplus_opp_r 180), (Qplus_comm 180).
    apply Qplus_le_l. exact Hlo. }
  assert (x < 60)%Q as H60.
  { unfold x. apply Qlt_shift_div_r; [reflexivity|].
    setoid_replace (60 * 6)%Q with (180 + 180)%Q by reflexivity.
    apply Qplus_lt_l. exact Hhi. }
  pose proof (Qfloor_resp_le _ _ H0) as Hf0. change (Qfloor 0) with 0 in Hf0.
  assert (Qfloor x < 60) as Hf60.
  { rewrite Zlt_Qlt. eapply Qle_lt_trans; [apply Qfloor_le|exact H60]. }
  lia.
Qed.

Lemma two_digits_length n : String.length (two_digits n) = 2%nat.
Proof. reflexivity. Qed.

Lemma append_length a b :
  String.length (String.append a b) = (String.length a + String.length b)%nat.
Proof. induction a; simpl; auto. Qed.

(** X7.  When the centroid longitude of a fire's AOI lies in [-180, 180),
    the UTM zone [process_feature] computes is between 1 and 60, and every
    task it starts has the ten-character CRS ["EPSG:258"] followed by the
    two digits of that zone. *)
Theorem process_feature_utm_zone (fuel : nat) (feature : Feature) (s : State) :
  let aoi := Buffer (Bounds (geometry feature)) 3000 in
  (-180 <= centroid_lon ee aoi)%Q ->
  (centroid_lon ee aoi < 180)%Q ->
  1 <= fire_huso ee aoi <= 60
  /\ exists started,
       tasks (snd (process_feature ee fuel feature s)) = tasks s ++ started
       /\ Forall (fun t =>
                    crs t = String.append "EPSG:258"
                              (two_digits (fire_huso ee aoi))
                    /\ String.length (crs t) = 10%nat) started.
Proof.
  intros aoi Hlo Hhi.
  pose proof (fire_huso_bounds aoi Hlo Hhi) as Hz. split; [exact Hz|].
  destruct (process_feature_extends ee fuel feature s s (extends_refl _ _ _ s))
    as (_ & _ & (nt & Et & Hnt) & _).
  exists nt. split; [exact Et|].
  eapply Forall_impl; [|exact Hnt]. intros t [_ Hc]. fold aoi in Hc.
  rewrite format_02d_two_digits in Hc by lia.
  split; [exact Hc|]. rewrite Hc, append_length. reflexivity.
Qed.

Lemma to_int_not_nil z : Z.to_int z <> Decimal.Pos Decimal.Nil
                         /\ Z.to_int z <> Decimal.Neg Decimal.Nil.
Proof.
  destruct z as [|p|p]; simpl; split; try discriminate;
    intro H; injection H as H;
    exact (DecimalPos.Unsigned.to_uint_nonnil p H).
Qed.

Lemma str_inj a b : str a = str b -> a = b.
Proof.
  unfold str. intro H. apply DecimalZ.to_int_inj.
  apply (f_equal NilZero.int_of_string) in H.
  destruct (to_int_not_nil a), (to_int_not_nil b).
  rewrite !NilZero.isi in H by assumption. now injection H.
Qed.

Lemma append_inj_r a b c :
  String.append a b = String.append a c -> b = c.
Proof.
  induction a; simpl; intro H; [exact H|]. injection H as H. auto.
Qed.

Lemma range_NoDup a b : NoDup (range a b).
Proof.
  unfold range. apply Injective_map_NoDup; [|apply seq_NoDup].
  intros i j H. lia.
Qed.

(** X8.  The name of a fire-year, [f"{incendioID}_{anio}"], determines the
    year: two different years of one fire never share a row name, a task
    description or an export file name, and the names of the years
    [process_feature] tries for a fire are pairwise distinct. *)
Theorem fire_year_names_distinct (incendioID : string) :
  (forall a b,
      String.append incendioID (String.append "_" (str a))
      = String.append incendioID (String.append "_" (str b)) ->
      a = b)
  /\ (forall feature,
        NoDup (map (fun anio =>
                      String.append incendioID (String.append "_" (str anio)))
                 (fire_years feature)))
  /\ (forall a b start end_ start' end_' aoi epsg,
        a <> b ->
        let ta := export_task ee
                    (String.append incendioID (String.append "_" (str a)))
                    aoi start end_ epsg in
        let tb := export_task ee
                    (String.append incendioID (String.append "_" (str b)))
                    aoi start' end_' epsg in
        fileNamePrefix ta <> fileNamePrefix tb
        /\ description ta <> description tb).
Proof.
  assert (forall a b,
             String.append incendioID (String.append "_" (str a))
             = String.append incendioID (String.append "_" (str b)) ->
             a = b) as Hinj.
  { intros a b H. apply append_inj_r, append_inj_r in H.
    now apply str_inj. }
  split; [exact Hinj|]. split.
  - intro feature. apply Injective_map_NoDup; [|apply range_NoDup].
    intros a b. apply Hinj.
  - intros a b start end_ start' end_' aoi epsg Hab ta tb. subst ta tb.
    cbn [fileNamePrefix description export_task]. split.
    + intro H. apply Hab, Hinj, H.
    + intro H. apply append_inj_r in H. apply Hab, Hinj, H.
Qed.




End Naming.

Lemma process_feature_utm_zone_witness :
  (-180 <= centroid_lon Toy.srv Toy.aoi)%Q
  /\ (centroid_lon Toy.srv Toy.aoi < 180)%Q
  /\ 1 <= fire_huso Toy.srv Toy.aoi <= 60.
Proof.
  assert (-180 <= centroid_lon Toy.srv Toy.aoi)%Q as Hlo
    by (vm_compute; discriminate).
  assert (centroid_lon Toy.srv Toy.aoi < 180)%Q as Hhi
    by (vm_compute; reflexivity).
  split; [exact Hlo|]. split; [exact Hhi|].
  exact (proj1 (process_feature_utm_zone Toy.srv 2 (Toy.fire "F1" 2021) Toy.s0
                  Hlo Hhi)).
Defined.


(* ------------------------------------------------------------------ *)
(** ** Further properties: the file against the export jobs *)

Section Pairing.

Variable ee : Service.

Lemma exported_names_app a b :
  exported_names (a ++ b) = exported_names a ++ exported_names b.
Proof. apply flat_map_app. Qed.

Lemma paired_same s s' :
  rows s' = rows s -> tasks s' = tasks s -> paired s s'.
Proof.
  intros Hr Ht. exists [], []. rewrite !app_nil_r. repeat split; auto.
Qed.

Lemma paired_trans s s1 s2 : paired s s1 -> paired s1 s2 -> paired s s2.
Proof.
  intros (nr & nt & Hr & Ht & Hc & He) (nr' & nt' & Hr' & Ht' & Hc' & He').
  exists (nr ++ nr'), (nt ++ nt').
  rewrite Hr', Hr, Ht', Ht, !app_assoc. repeat split.
  - apply Forall_app; auto.
  - rewrite exported_names_app, map_app, He, He'. reflexivity.
Qed.

Lemma paired_from s s1 s' :
  rows s1 = rows s -> tasks s1 = tasks s -> paired s1 s' -> paired s s'.
Proof.
  intros Hr Ht H. eapply paired_trans; [|exact H]. now apply paired_same.
Qed.

Lemma try_export_image_paired fuel nombre aoi start end_ epsg s :
  paired s (snd (try_export_image ee fuel nombre aoi start end_ epsg s)).
Proof.
  destruct (try_export_image_outcome ee nombre aoi start epsg fuel end_ s)
    as [s' Hr Ht|s' Hr Ht|s' pct Hp Hr Ht|s' pct e' Hp Hr Ht
       |s' e Hr Ht|s' Hr Ht];
    try (now apply paired_same).
  - eexists _, []. split; [exact Hr|]. rewrite app_nil_r.
    repeat split; [exact Ht|].
    constructor; [|constructor]. exists nombre. auto.
  - eexists _, []. split; [exact Hr|]. rewrite app_nil_r.
    repeat split; [exact Ht|].
    constructor; [|constructor]. exists nombre. auto.
  - eexists _, []. split; [exact Hr|]. rewrite app_nil_r.
    repeat split; [exact Ht|].
    constructor; [|constructor]. exists nombre. right. right. left.
    exists pct. split; [now apply Qltb_lt|reflexivity].
  - eexists _, _. repeat split; [exact Hr|exact Ht| |reflexivity].
    constructor; [|constructor]. exists nombre. right. right. right.
    exists pct. split; [now apply Qltb_le|reflexivity].
Qed.

Lemma fire_year_paired fuel incendioID aoi epsg anio s :
  paired s (snd (fire_year ee fuel incendioID aoi epsg anio s)).
Proof.
  unfold fire_year, try_except, bind, ret, print.
  match goal with
  | |- context [try_export_image ee fuel ?n aoi ?a ?b epsg s] =>
      pose proof (try_export_image_paired fuel n aoi a b epsg s) as H;
      destruct (try_export_image ee fuel n aoi a b epsg s) as [[b'| |] s1]
  end; cbn [snd] in *; exact H.
Qed.

Lemma for_each_paired {A} (body : A -> M unit) (l : list A) :
  (forall x s, paired s (snd (body x s))) ->
  forall s, paired s (snd (for_each l body s)).
Proof.
  intro Hbody. induction l as [|x rest IH]; intro s.
  - now apply paired_same.
  - cbn [for_each]. unfold bind. pose proof (Hbody x s) as Hx.
    destruct (body x s) as [[[]| |] s1]; cbn [snd] in *; auto.
    eapply paired_trans; [exact Hx|apply IH].
Qed.

Lemma process_feature_paired fuel feature s :
  paired s (snd (process_feature ee fuel feature s)).
Proof.
  unfold process_feature. unfold_script.
  repeat step_script; cbn [snd]; try (now apply paired_same).
  match goal with
  | |- paired _ (snd (for_each _ _ ?s1)) =>
      apply paired_from with s1; [reflexivity|reflexivity|]
  end.
  apply for_each_paired. intros anio s1. apply fire_year_paired.
Qed.

Lemma main_paired fuel s :
  exists data started,
    rows (snd (main ee fuel s)) = header :: data
    /\ tasks (snd (main ee fuel s)) = tasks s ++ started
    /\ Forall row_consistent data
    /\ exported_names data = map fileNamePrefix started.
Proof.
  unfold main, open_w, set_incendios_features. unfold_script.
  destruct (fault ee FeaturesGetInfo) eqn:Hf; cbn beta iota.
  - exists [], []. cbn. rewrite app_nil_r. repeat split. constructor.
  - match goal with
    | |- context [for_each ?l ?body ?s1] =>
        destruct (for_each_paired body l (process_feature_paired fuel) s1)
          as (nr & nt & Hr & Ht & Hc & He)
    end.
    exists nr, nt. rewrite Hr, Ht. repeat split; auto.
Qed.

(** X10.  At the end of a run, whatever the service refused, the export
    jobs started during the run are exactly those of the rows with status
    Exported: same number, same order, and each job's file name is its
    row's name. *)
Theorem exported_rows_match_tasks (fuel : nat) (s : State) :
  exists data started,
    rows (snd (main ee fuel s)) = header :: data
    /\ tasks (snd (main ee fuel s)) = tasks s ++ started
    /\ exported_names data = map fileNamePrefix started
    /\ List.length (exported_names data) = List.length started.
Proof.
  destruct (main_paired fuel s) as (data & started & Hr & Ht & _ & He).
  exists data, started. repeat split; auto.
  now rewrite He, length_map.
Qed.

(** X11.  In the file a run writes, the percentage field agrees with the
    status: No images and Cloud error rows have it empty, a Discarded row
    has a number above [UMBRAL_NUBES] and an Exported row a number at most
    [UMBRAL_NUBES]. *)
Theorem rows_percentage_agrees_with_status (fuel : nat) (s : State) :
  (UMBRAL_NUBES == 15)%Q
  /\ exists data,
       rows (snd (main ee fuel s)) = header :: data
       /\ Forall row_consistent data
       /\ (forall name q,
             In [Text name; Number q; Text "Exported"] data -> (q <= 15)%Q)
       /\ (forall name q,
             In [Text name; Number q; Text "Discarded"] data -> (15 < q)%Q)
       /\ (forall name pct st,
             In [Text name; pct; Text st] data ->
             st = "No images" \/ st = "Cloud error" -> pct = Text "").
Proof.
  split; [reflexivity|].
  destruct (main_paired fuel s) as (data & started & Hr & _ & Hc & _).
  exists data. split; [exact Hr|]. split; [exact Hc|].
  rewrite Forall_forall in Hc. repeat split.
  - intros name q H. destruct (Hc _ H) as (n & [E|[E|[(q' & Hq & E)|(q' & Hq & E)]]]);
      try discriminate E. injection E as -> ->. exact Hq.
  - intros name q H. destruct (Hc _ H) as (n & [E|[E|[(q' & Hq & E)|(q' & Hq & E)]]]);
      try discriminate E. injection E as -> ->. exact Hq.
  - intros name pct st H Hst.
    destruct (Hc _ H) as (n & [E|[E|[(q' & Hq & E)|(q' & Hq & E)]]]);
      injection E as -> -> ->; try reflexivity;
      destruct Hst as [Hst|Hst]; discriminate Hst.
Qed.

End Pairing.

(* ------------------------------------------------------------------ *)
(** ** Further properties: one fire-year *)

Section FireYear.

Variable ee : Service.

Ltac dead_branch :=
  exfalso;
  match goal with
  | H : (month (fromYMD _ 7 15) =? 6) = true |- _ => cbn in H; discriminate H
  | H : (month (fromYMD _ 6 15) =? 6) = false |- _ => cbn in H; discriminate H
  end.

Ltac no_such_row H :=
  exfalso; simpl rows in H;
  first
    [ apply (f_equal (@List.length _)) in H; rewrite length_app in H;
      simpl in H; lia
    | apply app_inv_head in H; discriminate H ].

Lemma fire_year_fuel_2 k incendioID aoi epsg anio s :
  fire_year ee (2 + k) incendioID aoi epsg anio s
  = fire_year ee 2 incendioID aoi epsg anio s.
Proof.
  unfold fire_year, try_except, bind.
  now rewrite try_export_image_fuel_2.
Qed.

(** X12.  Inside [process_feature] a fire-year is never discarded on its
    June window alone: when its row has status Discarded, the retry line
    was printed, the collection of the window May 15 - July 15 was
    queried, and the percentage in the row is that of the best image of
    that longer window, above [UMBRAL_NUBES]. *)
Theorem discarded_only_after_retry
    (k : nat) (incendioID : string) (aoi : Geometry) (epsg : string)
    (anio : Z) (s : State) (pct : Q) :
  let nombre := String.append incendioID (String.append "_" (str anio)) in
  let s' := snd (fire_year ee (2 + k) incendioID aoi epsg anio s) in
  rows s' = rows s ++ [[Text nombre; Number pct; Text "Discarded"]] ->
  In (Retrying nombre) (stdout s')
  /\ In (SizeGetInfo aoi (fromYMD anio 5 15) (fromYMD anio 7 15)) (calls s')
  /\ exists best,
       get_best_image_by_cloud_cover ee
         (get_s2_sr_cld_col ee aoi (fromYMD anio 5 15) (fromYMD anio 7 15)) aoi
       = Some best
       /\ pct = get_cloud_percentage ee best aoi
       /\ (UMBRAL_NUBES < pct)%Q.
Proof.
  intros nombre s'. subst s'. rewrite fire_year_fuel_2.
  unfold fire_year. fold nombre. cbn [try_export_image]. unfold_script.
  repeat step_script; cbn [snd]; intro H;
    try dead_branch; try (no_such_row H).
  all: simpl rows in H; apply app_inv_head in H; injection H as <-.
  all: split; [simpl stdout; rewrite !in_app_iff; simpl; tauto|].
  all: split; [simpl calls; rewrite !in_app_iff; simpl; tauto|].
  all: eexists; split; [eassumption|]; split; [reflexivity|].
  all: now apply Qltb_lt.
Qed.

Lemma calls_added_0 s s' : calls s' = calls s -> calls_added 0 s s'.
Proof. intro H. exists []. rewrite app_nil_r. auto. Qed.

Lemma calls_added_trans n m s s1 s2 :
  calls_added n s s1 -> calls_added m s1 s2 -> calls_added (n + m) s s2.
Proof.
  intros (a & Ea & La) (b & Eb & Lb). exists (a ++ b).
  rewrite Eb, Ea, app_assoc, length_app. split; [reflexivity|lia].
Qed.

Lemma calls_added_le n m s s' :
  (n <= m)%nat -> calls_added n s s' -> calls_added m s s'.
Proof. intros H (a & Ea & La). exists a. split; [auto|lia]. Qed.

Lemma fire_year_calls k incendioID aoi epsg anio s :
  exists sent,
    calls (snd (fire_year ee (2 + k) incendioID aoi epsg anio s))
    = calls s ++ sent
    /\ hd_error sent
       = Some (SizeGetInfo aoi (fromYMD anio 5 15) (fromYMD anio 6 15))
    /\ (List.length sent <= 7)%nat
    /\ (task_starts sent <= 1)%nat.
Proof.
  rewrite fire_year_fuel_2.
  unfold fire_year. cbn [try_export_image]. unfold_script.
  repeat step_script; cbn [snd]; try dead_branch.
  all: simpl calls; rewrite <- ?app_assoc; eexists;
    (split; [reflexivity|]); (split; [reflexivity|]);
    unfold task_starts; simpl; lia.
Qed.

Lemma for_each_calls_added {A} (w : A -> nat) (body : A -> M unit) (l : list A) :
  (forall x s, calls_added (w x) s (snd (body x s))) ->
  forall s, calls_added (list_sum (map w l)) s (snd (for_each l body s)).
Proof.
  intro Hbody. induction l as [|x rest IH]; intro s.
  - now apply calls_added_0.
  - cbn [for_each map]. unfold bind.
    change (list_sum (w x :: map w rest))
      with (w x + list_sum (map w rest))%nat.
    pose proof (Hbody x s) as Hx.
    destruct (body x s) as [[[]| |] s1]; cbn [snd] in *.
    + eapply calls_added_trans; [exact Hx|apply IH].
    + eapply calls_added_le; [|exact Hx]. lia.
    + eapply calls_added_le; [|exact Hx]. lia.
Qed.

Lemma list_sum_const {A} (c : nat) (l : list A) :
  list_sum (map (fun _ => c) l) = (c * List.length l)%nat.
Proof. induction l; simpl; lia. Qed.

Lemma process_feature_calls_added k feature s :
  calls_added (3 + 7 * List.length (fire_years feature)) s
    (snd (process_feature ee (2 + k) feature s)).
Proof.
  unfold process_feature. unfold_script.
  repeat step_script; cbn [snd];
    try (exists [IdGetInfo feature]; split; [reflexivity|simpl; lia]);
    try (eexists [IdGetInfo feature; _]; simpl calls; rewrite <- app_assoc;
         split; [reflexivity|simpl; lia]);
    try (eexists [IdGetInfo feature; _; _]; simpl calls;
         rewrite <- !app_assoc; split; [reflexivity|simpl; lia]).
  match goal with
  | |- calls_added _ _ (snd (for_each ?l ?body ?s1)) =>
      assert (calls_added 3 s s1) as H3
        by (eexists [_; _; _]; simpl calls; rewrite <- !app_assoc;
            split; [reflexivity|simpl; lia]);
      pose proof (for_each_calls_added (fun _ => 7%nat) body l) as Hloop
  end.
  eapply calls_added_trans; [exact H3|].
  unfold fire_years. rewrite <- list_sum_const. apply Hloop.
  intros anio s1.
  destruct (fire_year_calls k (id feature)
              (Buffer (Bounds (geometry feature)) 3000)
              (String.append "EPSG:258"
                 (format_02d
                    (fire_huso ee (Buffer (Bounds (geometry feature)) 3000))))
              anio s1) as (sent & E & _ & Hl & _).
  exists sent. auto.
Qed.

(** X13.  The remote requests of a run are bounded.  A fire-year sends
    between one and seven blocking requests, the first being the size of
    the May 15 - June 15 collection, and starts at most one task; a fire
    sends at most three requests plus seven per year tried; the main block
    sends one more for the fire list. *)
Theorem requests_bounded (k : nat) (s : State) :
  (forall incendioID aoi epsg anio s0,
      exists sent,
        calls (snd (fire_year ee (2 + k) incendioID aoi epsg anio s0))
        = calls s0 ++ sent
        /\ hd_error sent
           = Some (SizeGetInfo aoi (fromYMD anio 5 15) (fromYMD anio 6 15))
        /\ (1 <= List.length sent <= 7)%nat
        /\ (task_starts sent <= 1)%nat)
  /\ (forall feature s0,
        exists sent,
          calls (snd (process_feature ee (2 + k) feature s0)) = calls s0 ++ sent
          /\ (List.length sent
              <= 3 + 7 * List.length (fire_years feature))%nat)
  /\ exists sent,
       calls (snd (main ee (2 + k) s)) = calls s ++ sent
       /\ (List.length sent
           <= 1 + list_sum
                    (map (fun f => 3 + 7 * List.length (fire_years f))
                       (incendios ee)))%nat.
Proof.
  split; [|split].
  - intros incendioID aoi epsg anio s0.
    destruct (fire_year_calls k incendioID aoi epsg anio s0)
      as (sent & E & Hh & Hl & Ht).
    exists sent. repeat split; auto.
    destruct sent; [discriminate Hh|simpl; lia].
  - intros feature s0. apply process_feature_calls_added.
  - unfold main, open_w, set_incendios_features. unfold_script.
    destruct (fault ee FeaturesGetInfo) eqn:Hf; cbn beta iota.
    + exists [FeaturesGetInfo]. split; [reflexivity|simpl; lia].
    + match goal with
      | |- context [for_each ?l ?body ?s1] =>
          destruct (for_each_calls_added
                      (fun f => (3 + 7 * List.length (fire_years f))%nat)
                      body l (process_feature_calls_added k) s1)
            as (sent & E & Hl)
      end.
      exists (FeaturesGetInfo :: sent). rewrite E. simpl calls.
      rewrite <- app_assoc. split; [reflexivity|].
      cbn [List.length]. lia.
Qed.

End FireYear.

Lemma discarded_only_after_retry_witness :
  rows (snd (fire_year Toy.srv_overcast 2 "F1" Toy.aoi "EPSG:25831" 2022 Toy.s0))
  = rows Toy.s0 ++ [[Text "F1_2022"; Number (100 # 4); Text "Discarded"]]
  /\ In (Retrying "F1_2022")
       (stdout (snd (fire_year Toy.srv_overcast 2 "F1" Toy.aoi "EPSG:25831" 2022
                       Toy.s0))).
Proof.
  assert (rows (snd (fire_year Toy.srv_overcast 2 "F1" Toy.aoi "EPSG:25831" 2022
                       Toy.s0))
          = rows Toy.s0 ++ [[Text "F1_2022"; Number (100 # 4); Text "Discarded"]])
    as H by reflexivity.
  split; [exact H|].
  exact (proj1 (discarded_only_after_retry Toy.srv_overcast 0 "F1" Toy.aoi
                  "EPSG:25831" 2022 Toy.s0 (100 # 4) H)).
Defined.

(* ------------------------------------------------------------------ *)
(** ** Further properties: the longer window of the retry *)

Section Retry.

Variable ee : Service.

Lemma NoDup_map_eq {A B} (f : A -> B) (l : list A) a b :
  NoDup (map f l) -> In a l -> In b l -> f a = f b -> a = b.
Proof.
  induction l as [|x l IH]; simpl; [easy|].
  intros Hnd Ha Hb E. inversion Hnd as [|? ? Hx Hl]; subst.
  destruct Ha as [<-|Ha], Hb as [<-|Hb]; auto.
  - exfalso. apply Hx. rewrite E. now apply in_map.
  - exfalso. apply Hx. rewrite <- E. now apply in_map.
Qed.

Lemma in_window_longer start e1 e2 t :
  date_leb e1 e2 = true ->
  in_window start e1 t = true -> in_window start e2 t = true.
Proof.
  unfold in_window. intros He H. apply andb_true_iff in H.
  destruct H as [H1 H2]. apply andb_true_iff. split; [exact H1|].
  eapply date_ltb_leb_trans; eauto.
Qed.

Lemma longer_window_collection aoi start e1 e2 :
  NoDup (map cp_index (S2_CLOUD_PROBABILITY ee)) ->
  date_leb e1 e2 = true ->
  forall i, In i (get_s2_sr_cld_col ee aoi start e1) ->
            In i (get_s2_sr_cld_col ee aoi start e2).
Proof.
  intros Hnd He i Hi. unfold get_s2_sr_cld_col in *.
  apply saveFirst_apply_iff in Hi. destruct Hi as (p & c & Hp & Hf & ->).
  apply saveFirst_apply_iff. exists p, c. split; [|split; [|reflexivity]].
  - apply s2_sr_col_In in Hp. apply s2_sr_col_In.
    destruct Hp as (H1 & H2 & H3 & H4). repeat split; auto.
    eapply in_window_longer; eauto.
  - apply find_some in Hf. destruct Hf as [Hc Hidx].
    apply s2_cloudless_col_In in Hc. destruct Hc as (Hc1 & Hc2 & Hc3).
    assert (In c (cp_filterDate start e2
                    (cp_filterBounds ee aoi (S2_CLOUD_PROBABILITY ee)))) as Hc'.
    { apply s2_cloudless_col_In. repeat split; auto.
      eapply in_window_longer; eauto. }
    destruct (find (fun c0 => String.eqb (system_index p) (cp_index c0))
                (cp_filterDate start e2
                   (cp_filterBounds ee aoi (S2_CLOUD_PROBABILITY ee))))
      as [c'|] eqn:E.
    + f_equal. apply find_some in E. destruct E as [Hin' Hidx'].
      apply s2_cloudless_col_In in Hin'. destruct Hin' as (Hin' & _).
      apply String.eqb_eq in Hidx, Hidx'.
      eapply NoDup_map_eq; eauto. congruence.
    + exfalso. pose proof (find_none _ _ E c Hc') as Hn. cbv beta in Hn.
      congruence.
Qed.

Lemma best_image_min col aoi b :
  get_best_image_by_cloud_cover ee col aoi = Some b ->
  exists i,
    In i col /\ b = set_cloudiness ee aoi i
    /\ forall x, In x col ->
         (get_cloud_percentage ee i aoi <= get_cloud_percentage ee x aoi)%Q.
Proof.
  intro H. unfold get_best_image_by_cloud_cover in H.
  destruct col as [|c0 rest]; [discriminate|].
  destruct (sort_first_min (map (set_cloudiness ee aoi) (c0 :: rest)))
    as (b' & Hb & Hin & Hmin); [discriminate|].
  rewrite Hb in H. injection H as <-.
  apply in_map_iff in Hin. destruct Hin as (i & <- & Hi).
  exists i. split; [exact Hi|]. split; [reflexivity|].
  intros x Hx. rewrite <- !(sort_key_set_cloudiness ee aoi).
  apply Hmin. now apply in_map.
Qed.

Lemma retry_window_longer end_ :
  month end_ = 6 -> date_leb end_ (fromYMD (year end_) 7 15) = true.
Proof.
  intro H. unfold date_leb, date_ltb. destruct end_ as [y m d]. simpl in *.
  subst m. rewrite Z.ltb_irrefl, Z.eqb_refl. reflexivity.
Qed.

(** X14.  When no two images of the cloud-probability archive share an
    index, ending the window later only adds images: the collection of
    the longer window contains that of the shorter one, and its best
    image has a cloud percentage no greater.  The window of the July
    retry is such a longer window, so the retry never scores worse than
    the June attempt. *)
Theorem longer_window_never_worse
    (aoi : Geometry) (start e1 e2 : Date) (b1 b2 : Image) :
  NoDup (map cp_index (S2_CLOUD_PROBABILITY ee)) ->
  date_leb e1 e2 = true ->
  get_best_image_by_cloud_cover ee (get_s2_sr_cld_col ee aoi start e1) aoi
    = Some b1 ->
  get_best_image_by_cloud_cover ee (get_s2_sr_cld_col ee aoi start e2) aoi
    = Some b2 ->
  (forall i, In i (get_s2_sr_cld_col ee aoi start e1) ->
             In i (get_s2_sr_cld_col ee aoi start e2))
  /\ (get_cloud_percentage ee b2 aoi <= get_cloud_percentage ee b1 aoi)%Q
  /\ (forall end_, month end_ = 6 ->
                   date_leb end_ (fromYMD (year end_) 7 15) = true).
Proof.
  intros Hnd He H1 H2.
  pose proof (longer_window_collection aoi start e1 e2 Hnd He) as Hsub.
  split; [exact Hsub|]. split; [|exact retry_window_longer].
  destruct (best_image_min _ _ _ H1) as (i1 & Hi1 & -> & _).
  destruct (best_image_min _ _ _ H2) as (i2 & Hi2 & -> & Hmin2).
  change (get_cloud_percentage ee (set_cloudiness ee aoi i2) aoi)
    with (get_cloud_percentage ee i2 aoi).
  change (get_cloud_percentage ee (set_cloudiness ee aoi i1) aoi)
    with (get_cloud_percentage ee i1 aoi).
  apply Hmin2, Hsub, Hi1.
Qed.

End Retry.

Lemma longer_window_never_worse_witness :
  let b1 := set_cloudiness Toy.srv_cloudy Toy.aoi Toy.scene_A in
  let b2 := set_cloudiness Toy.srv_cloudy Toy.aoi
              (set_s2cloudless (Toy.s2 "D" (fromYMD 2022 6 20) 5)
                 (Toy.cld "D" (fromYMD 2022 6 20) (Toy.flat 3))) in
  NoDup (map cp_index (S2_CLOUD_PROBABILITY Toy.srv_cloudy))
  /\ (get_cloud_percentage Toy.srv_cloudy b2 Toy.aoi
      <= get_cloud_percentage Toy.srv_cloudy b1 Toy.aoi)%Q.
Proof.
  intros b1 b2.
  assert (NoDup (map cp_index (S2_CLOUD_PROBABILITY Toy.srv_cloudy))) as Hnd.
  { simpl. constructor; [|constructor; [|constructor]].
    - intros [H|[]]. discriminate H.
    - intros []. }
  split; [exact Hnd|].
  exact (proj1 (proj2 (longer_window_never_worse Toy.srv_cloudy Toy.aoi
                         (Toy.may15 2022) (Toy.jun15 2022) (fromYMD 2022 7 15)
                         b1 b2 Hnd eq_refl eq_refl eq_refl))).
Defined.
